(** * Job orchestration core of the AI video generator (backend/main.py)

    A shallow embedding of the job store, the job lifecycle handlers, the
    Vidu polling loop and the three-tier fallback orchestration, followed by
    the properties of the specification that are stated about them.

    Conventions of the embedding.
    - A Python [str] is the list of its Unicode code points ([list N]);
      [lit] turns an ASCII literal of the source into that form.
    - A job record is the Python [dict] the source builds: a finite map
      from field names to values that are [None] or a [str].
    - The process state (the Redis server contents, the module-level
      dictionary [VIDEO_GENERATION_STATUS], the files on disk) is threaded
      explicitly through a state-and-exception monad; a Python [raise] is
      the [Raise] result and [try]/[except] is [try_except].
    - Everything the program obtains from outside (whether a Redis call
      raises, HTTP replies, the Hugging Face result) is an input of the
      model, so the theorems quantify over it. *)

From stdpp Require Import gmap strings list fin_maps.
From Stdlib Require Import ZArith Ascii String.

Local Open Scope Z_scope.

(** ** Python strings *)

Abbreviation pystr := (list N).

Definition lit (s : string) : pystr :=
  List.map N_of_ascii (list_ascii_of_string s).

(** [str.isspace] on one code point, as [str.strip()] without argument
    uses it: the ASCII table of CPython (0x09-0x0D, 0x1C-0x1F, 0x20) and the
    Unicode white-space code points above it. *)
Definition py_isspace (c : N) : bool :=
  (((9 <=? c) && (c <=? 13)) || ((28 <=? c) && (c <=? 32))
   || (c =? 133) || (c =? 160) || (c =? 5760)
   || ((8192 <=? c) && (c <=? 8202))
   || (c =? 8232) || (c =? 8233) || (c =? 8239) || (c =? 8287)
   || (c =? 12288))%N.

Fixpoint lstrip (s : pystr) : pystr :=
  match s with
  | [] => []
  | c :: s' => if py_isspace c then lstrip s' else s
  end.

Definition rstrip (s : pystr) : pystr := reverse (lstrip (reverse s)).

Definition strip (s : pystr) : pystr := rstrip (lstrip s).

(** Truth value of a [str]: the empty string is false. *)
Definition str_truthy (s : pystr) : bool :=
  match s with [] => false | _ => true end.

(** ** Values and job records *)

Inductive pyval :=
| PyNone
| PyStr (s : pystr).

#[global] Instance pyval_eq_dec : EqDecision pyval.
Proof. solve_decision. Defined.

(** Truth value of an optional value, for [if not video_path], [if task_id]
    and the like: [None] and the empty string are false. *)
Definition val_truthy (v : pyval) : bool :=
  match v with
  | PyNone => false
  | PyStr s => str_truthy s
  end.

(** A job record is a [dict] with string keys. *)
Abbreviation record := (gmap string pyval).

(** [d.get(k)]: the value, or [None] when the key is absent. *)
Definition dict_get (d : record) (k : string) : pyval :=
  default PyNone (d !! k).

(** [d.update(u)]: every key of [u] is set in [d], the others are kept. *)
Definition dict_update (d u : record) : record := u ∪ d.

(** Truth value of a [dict]: the empty dict is false. *)
Definition dict_truthy (d : record) : bool := bool_decide (d ≠ ∅).

(** ** Exceptions and the process state *)

Inductive exn :=
| HTTPException (status_code : Z) (detail : string)
| RedisError
| KeyError (key : string)
| Exception (msg : string).

Inductive result (A : Type) :=
| Ok (a : A)
| Raise (e : exn).
Arguments Ok {A} a.
Arguments Raise {A} e.

(** The value of a normal return. *)
Definition result_value {A} (r : result A) : option A :=
  match r with
  | Ok a => Some a
  | Raise _ => None
  end.

(** The two backing stores of job records.  [redis_client] is the module
    variable decided once at start-up ([false] stands for [None]);
    [redis_db] is the content of the server, each entry with the
    time-to-live it was written with.  The JSON text that [json.dumps]
    produces is represented by the record it encodes ([json.loads] gives
    it back, and the text of a dict is never the empty string). *)
Record store := Store {
  redis_client : bool;
  redis_db : gmap pystr (Z * record);
  VIDEO_GENERATION_STATUS : gmap pystr record
}.

(** One call of [update_job_data] that found a record, as the ghost log
    keeps it: the stores when the call began, the job, the partial update
    and the merged record handed to [store_job_data]. *)
Record update_event := UpdateEvent {
  ev_before : store;
  ev_job : pystr;
  ev_updates : record;
  ev_written : record
}.

(** The whole state.  [redis_faults] is the outcome of the coming Redis
    calls, in order ([true]: the call raises; past the end of the list no
    call raises).  The last four fields are ghost state that the program
    cannot read: tasks handed to [asyncio.create_task], the log of
    updates, the number of status queries sent and the seconds slept. *)
Record world := World {
  st : store;
  files : gmap pystr (list N);
  redis_faults : list bool;
  scheduled : list (pystr * pystr);
  update_log : list update_event;
  queries : nat;
  slept : Z
}.

Definition with_st (w : world) (s : store) : world :=
  World s (files w) (redis_faults w) (scheduled w) (update_log w)
        (queries w) (slept w).

Definition with_files (w : world) (f : gmap pystr (list N)) : world :=
  World (st w) f (redis_faults w) (scheduled w) (update_log w)
        (queries w) (slept w).

Definition with_faults (w : world) (l : list bool) : world :=
  World (st w) (files w) l (scheduled w) (update_log w)
        (queries w) (slept w).

(** ** The monad *)

Definition M (A : Type) : Type := world → result A * world.

Definition ret {A} (a : A) : M A := λ w, (Ok a, w).

Definition bind {A B} (m : M A) (f : A → M B) : M B :=
  λ w, match m w with
       | (Ok a, w') => f a w'
       | (Raise e, w') => (Raise e, w')
       end.

Definition raise {A} (e : exn) : M A := λ w, (Raise e, w).

(** [try: body except Exception as e: handler]; what [body] did to the
    state before raising stays done. *)
Definition try_except {A} (body : M A) (handler : exn → M A) : M A :=
  λ w, match body w with
       | (Ok a, w') => (Ok a, w')
       | (Raise e, w') => handler e w'
       end.

Definition gets {A} (f : world → A) : M A := λ w, (Ok (f w), w).

Definition modify (f : world → world) : M unit := λ w, (Ok tt, f w).

Notation "'let*' x ':=' m 'in' k" := (bind m (λ x, k))
  (at level 10, x name, m at level 100, k at level 200).
Notation "m ;;; k" := (bind m (λ _, k))
  (at level 100, right associativity).

(** ** Redis *)

Definition job_key (job_id : pystr) : pystr := lit "job:" ++ job_id.

(** A call to the Redis server: it takes its outcome off the schedule and
    raises when that outcome is a fault. *)
Definition redis_call : M unit :=
  λ w, let w' := with_faults w (tail (redis_faults w)) in
       match redis_faults w with
       | true :: _ => (Raise RedisError, w')
       | _ => (Ok tt, w')
       end.

(** [redis_client.setex(key, ttl, value)] *)
Definition redis_setex (key : pystr) (ttl : Z) (value : record) : M unit :=
  redis_call ;;;
  modify (λ w, with_st w (Store (redis_client (st w))
                                (<[key := (ttl, value)]> (redis_db (st w)))
                                (VIDEO_GENERATION_STATUS (st w)))).

(** [redis_client.get(key)] *)
Definition redis_get (key : pystr) : M (option record) :=
  redis_call ;;;
  gets (λ w, snd <$> redis_db (st w) !! key).

(** The server dropping a key whose time-to-live has run out. *)
Definition redis_expire (key : pystr) (w : world) : world :=
  with_st w (Store (redis_client (st w)) (delete key (redis_db (st w)))
                   (VIDEO_GENERATION_STATUS (st w))).

(** ** Helper functions of the source: the job store *)

(** [VIDEO_GENERATION_STATUS[job_id] = data] *)
Definition memory_set (job_id : pystr) (data : record) : M unit :=
  modify (λ w, with_st w (Store (redis_client (st w)) (redis_db (st w))
                                (<[job_id := data]>
                                   (VIDEO_GENERATION_STATUS (st w))))).

(** [returned] tells whether the [return] inside the [try] was reached. *)
Definition store_job_data (job_id : pystr) (data : record) : M unit :=
  let* client := gets (λ w, redis_client (st w)) in
  let* returned := (if client
                    then try_except
                           (redis_setex (job_key job_id) 3600 data ;;; ret true)
                           (λ _, ret false)
                    else ret false) in
  if (returned : bool) then ret tt
  else memory_set job_id data.

(** Where the object returned by [get_job_data] lives: [json.loads] builds
    a new dict, the in-process map hands out the dict it holds. *)
Inductive origin := Fresh | Shared.

(** [get_job_data], with the origin of the dict it returns.  [if data:]
    holds exactly when Redis has a value under the key. *)
Definition get_job_object (job_id : pystr) : M (option (record * origin)) :=
  let* client := gets (λ w, redis_client (st w)) in
  let* found := (if client
                 then try_except (redis_get (job_key job_id))
                                 (λ _, ret None)
                 else ret None) in
  match found with
  | Some d => ret (Some (d, Fresh))
  | None =>
      gets (λ w, (λ d, (d, Shared)) <$> VIDEO_GENERATION_STATUS (st w) !! job_id)
  end.

Definition get_job_data (job_id : pystr) : M (option record) :=
  let* o := get_job_object job_id in
  ret (fst <$> o).

Definition log_update (e : update_event) : M unit :=
  modify (λ w, World (st w) (files w) (redis_faults w) (scheduled w)
                     (update_log w ++ [e]) (queries w) (slept w)).

(** [current_data.update(updates)] changes the dict in place: when it is
    the one held by the in-process map, the map shows the change before
    [store_job_data] is called. *)
Definition update_job_data (job_id : pystr) (updates : record) : M unit :=
  let* before := gets st in
  let* current_data := get_job_object job_id in
  match current_data with
  | Some (d, o) =>
      if dict_truthy d then
        let d' := dict_update d updates in
        log_update (UpdateEvent before job_id updates d') ;;;
        (match o with
         | Shared => memory_set job_id d'
         | Fresh => ret tt
         end) ;;;
        store_job_data job_id d'
      else ret tt
  | None => ret tt
  end.

(** ** Job lifecycle handlers *)

Record Video_Job_Created_Response := {
  created_job_id : pystr;
  created_status : pystr;
  created_message : pystr
}.

(** The fields are the values read from the record; the validation of
    their types by pydantic is left out. *)
Record Status_Response := {
  status_job_id : pystr;
  status_status : pyval;
  status_message : pyval;
  status_video_url : pyval
}.

(** What [FileResponse(video_path, ...)] sends: the file named by the
    record, with its content as it is on disk. *)
Record FileResponse := {
  file_path : pystr;
  media_type : pystr;
  content_disposition : pystr;
  file_body : list N
}.

(** [asyncio.create_task(video_generation_process(job_id, prompt))]: the
    coroutine is handed to the event loop and the caller goes on. *)
Definition create_task (job_id prompt : pystr) : M unit :=
  modify (λ w, World (st w) (files w) (redis_faults w)
                     (scheduled w ++ [(job_id, prompt)])
                     (update_log w) (queries w) (slept w)).

Definition initial_job_data (prompt : pystr) : record :=
  {[ "status" := PyStr (lit "processing");
     "message" := PyStr (lit "Video generation has started");
     "video_url" := PyNone;
     "prompt" := PyStr prompt ]}.

(** [generate_video]; [uuid4] is the value [str(uuid.uuid4())] draws. *)
Definition generate_video (uuid4 : pystr) (prompt : pystr)
  : M Video_Job_Created_Response :=
  if negb (str_truthy (strip prompt))
  then raise (HTTPException 400 "Prompt is required")
  else
    let job_id := uuid4 in
    let job_data := initial_job_data prompt in
    store_job_data job_id job_data ;;;
    create_task job_id prompt ;;;
    ret {| created_job_id := job_id;
           created_status := lit "processing";
           created_message := lit "Video generation has started" |}.

(** [job_data[k]], raising [KeyError] on a missing key. *)
Definition dict_item (d : record) (k : string) : M pyval :=
  match d !! k with
  | Some v => ret v
  | None => raise (KeyError k)
  end.

(** [if not job_data]: no record, or an empty dict. *)
Definition job_data_falsy (job_data : option record) : bool :=
  match job_data with
  | None => true
  | Some d => negb (dict_truthy d)
  end.

Definition get_status (job_id : pystr) : M Status_Response :=
  let* job_data := get_job_data job_id in
  if job_data_falsy job_data
  then raise (HTTPException 404 "Job ID not found")
  else
    let d := default ∅ job_data in
    let* s := dict_item d "status" in
    let* m := dict_item d "message" in
    ret {| status_job_id := job_id;
           status_status := s;
           status_message := m;
           status_video_url := dict_get d "video_url" |}.

(** [os.path.exists]: false on the empty path. *)
Definition os_path_exists (path : pystr) : M bool :=
  gets (λ w, str_truthy path && bool_decide (is_Some (files w !! path))).

Definition download_video (job_id : pystr) : M FileResponse :=
  let* job_data := get_job_data job_id in
  if job_data_falsy job_data
  then raise (HTTPException 404 "Job ID not found")
  else
    let d := default ∅ job_data in
    let* s := dict_item d "status" in
    if bool_decide (s ≠ PyStr (lit "completed"))
    then raise (HTTPException 400 "Video not ready for download")
    else
      let* missing :=
        match dict_get d "video_path" with
        | PyStr video_path =>
            if negb (str_truthy video_path) then ret true
            else (let* present := os_path_exists video_path in
                  ret (negb present))
        | PyNone => ret true
        end in
      if (missing : bool)
      then raise (HTTPException 404 "Video file not found")
      else
        let video_path := match dict_get d "video_path" with
                          | PyStr p => p
                          | PyNone => []
                          end in
        let* body := gets (λ w, default [] (files w !! video_path)) in
        ret {| file_path := video_path;
               media_type := lit "video/mp4";
               content_disposition :=
                 lit "inline; filename=" ++ job_id ++ lit ".mp4";
               file_body := body |}.

(** ** The outside world of the orchestration *)

(** What an HTTP request gives: [requests] raises (no connection, time
    out), or a response with its status code and, when [response.json()]
    is asked for, the decoded body ([None]: decoding raises, or the body
    has not the shape of the wire contract so that reading it raises). *)
Inductive http_reply (A : Type) :=
| NoReply
| Reply (status_code : Z) (json : option A).
Arguments NoReply {A}.
Arguments Reply {A} status_code json.

(** Body of the task status endpoint, [{state, creations:[{url}]}]:
    [state] is [data.get("state", "")], [creations] is
    [data.get("creations", [])] with each element reduced to its
    [.get("url")]. *)
Record creations_json := {
  state : pystr;
  creations : list pyval
}.

(** Result of [client.predict]: a dict with a ['video'] entry, or the path
    itself. *)
Inductive hf_result :=
| HfDict (video : pystr)
| HfPath (path : pystr).

Record env := {
  VIDU_API_KEY : pyval;                          (* os.getenv("VIDU_API_KEY") *)
  text2video : http_reply pyval;                 (* POST, body reduced to result.get("task_id") *)
  tasks_creations : nat → http_reply creations_json;  (* GET of each attempt *)
  content_of : pystr → option (list N);          (* GET url, raise_for_status, .content *)
  makedirs_ok : bool;                            (* os.makedirs("./videos", exist_ok=True) *)
  writable : pystr → bool;                       (* the destination can be written *)
  hf_login_ok : bool;                            (* import gradio_client, login(hf_token) *)
  predict : option hf_result                     (* Client(...).predict(...), None: raises *)
}.

Definition sleep (seconds : Z) : M unit :=
  modify (λ w, World (st w) (files w) (redis_faults w) (scheduled w)
                     (update_log w) (queries w) (slept w + seconds)).

Definition count_query : M unit :=
  modify (λ w, World (st w) (files w) (redis_faults w) (scheduled w)
                     (update_log w) (S (queries w)) (slept w)).

Definition os_makedirs (E : env) : M unit :=
  if makedirs_ok E then ret tt else raise (Exception "makedirs").

(** [with open(path, "wb") as f: f.write(content)] *)
Definition write_file (E : env) (path : pystr) (content : list N) : M unit :=
  if writable E path
  then modify (λ w, with_files w (<[path := content]> (files w)))
  else raise (Exception "open").

(** [shutil.copy2(src, dst)]: raises on a missing source, on the same
    file and on a destination that cannot be written. *)
Definition shutil_copy2 (E : env) (src dst : pystr) : M unit :=
  let* fs := gets files in
  match fs !! src with
  | Some content =>
      if bool_decide (src = dst) then raise (Exception "SameFileError")
      else write_file E dst content
  | None => raise (Exception "FileNotFoundError")
  end.

Definition video_file (job_id : pystr) : pystr :=
  lit "./videos/" ++ job_id ++ lit ".mp4".

(** ** Tier 1: polling the Vidu task *)

Definition download_vidu_video (E : env) (url job_id : pystr)
  : M (option pystr) :=
  try_except
    (match content_of E url with
     | Some content =>
         os_makedirs E ;;;
         let video_path := video_file job_id in
         write_file E video_path content ;;;
         ret (Some video_path)
     | None => raise (Exception "download")
     end)
    (λ _, ret None).

(** How one turn of the [for] loop ends: with [continue] / falling off
    the end of the body, or with a [return]. *)
Inductive loop_exit :=
| Continue
| Return (value : option pystr).

(** The body of [for attempt in range(120)]. *)
Definition poll_attempt (E : env) (job_id : pystr) (attempt : nat)
  : M loop_exit :=
  try_except
    (count_query ;;;
     match tasks_creations E attempt with
     | NoReply => raise (Exception "requests")
     | Reply status_code json =>
         if bool_decide (status_code ≠ 200)
         then sleep 5 ;;; ret Continue
         else
           match json with
           | None => raise (Exception "json")
           | Some data =>
               if bool_decide (state data = lit "success") then
                 match creations data with
                 | PyStr video_url :: _ =>
                     if str_truthy video_url
                     then (let* r := download_vidu_video E video_url job_id in
                           ret (Return r))
                     else ret (Return None)
                 | _ => ret (Return None)
                 end
               else if bool_decide (state data = lit "failed") then
                 ret (Return None)
               else
                 sleep 5 ;;; ret Continue
           end
     end)
    (λ _, sleep 5 ;;; ret Continue).

(** The loop itself, [remaining] turns from [attempt] on; falling out of
    it is the "Polling timeout" [return None]. *)
Fixpoint poll_from (E : env) (job_id : pystr) (remaining attempt : nat)
  : M (option pystr) :=
  match remaining with
  | O => ret None
  | S remaining' =>
      let* x := poll_attempt E job_id attempt in
      match x with
      | Return value => ret value
      | Continue => poll_from E job_id remaining' (S attempt)
      end
  end.

Definition poll_vidu_task (E : env) (job_id : pystr) : M (option pystr) :=
  poll_from E job_id 120 0.

(** ** The three tiers *)

Definition PUBLIC_BASE_URL : pystr := lit "https://bdcc07030d0e.ngrok-free.app".

(** The robot face, the check mark and the cross that open the messages
    are given by their code points. *)
Definition msg_connecting : pystr :=
  129302%N :: lit " Connecting to Vidu AI model...".
Definition msg_generated : pystr :=
  9989%N :: lit " Video generated successfully!".
Definition msg_huggingface : pystr :=
  129302%N :: lit " Using HuggingFace model...".
Definition msg_placeholder : pystr :=
  9989%N :: lit " Demo video ready (using placeholder)".
Definition msg_all_failed : pystr :=
  10060%N :: lit " All video generation methods failed".

Definition upd_connecting : record :=
  {[ "message" := PyStr msg_connecting;
     "status" := PyStr (lit "processing") ]}.

Definition upd_completed (message video_url video_path : pystr) : record :=
  {[ "status" := PyStr (lit "completed");
     "message" := PyStr message;
     "video_url" := PyStr video_url;
     "video_path" := PyStr video_path ]}.

Definition upd_huggingface : record :=
  {[ "message" := PyStr msg_huggingface ]}.

Definition upd_error : record :=
  {[ "status" := PyStr (lit "error");
     "message" := PyStr msg_all_failed;
     "video_url" := PyNone ]}.

(** Body of the [try] of [use_mock_video_fallback]. *)
Definition mock_tier (E : env) (job_id : pystr) : M unit :=
  let mock_video_path := lit "./videos" ++ lit "/mock_video.mp4" in
  let final_path := lit "./videos" ++ lit "/" ++ job_id ++ lit ".mp4" in
  let* present := os_path_exists mock_video_path in
  if (present : bool) then
    shutil_copy2 E mock_video_path final_path ;;;
    update_job_data job_id
      (upd_completed msg_placeholder
                     (lit "/api/download/" ++ job_id) final_path)
  else raise (Exception "No mock video available").

Definition use_mock_video_fallback (E : env) (job_id prompt : pystr) : M unit :=
  try_except (mock_tier E job_id)
             (λ _, update_job_data job_id upd_error).

(** Body of the [try] of [use_huggingface_fallback]. *)
Definition huggingface_tier (E : env) (job_id prompt : pystr) : M unit :=
  (if hf_login_ok E then ret tt else raise (Exception "login")) ;;;
  update_job_data job_id upd_huggingface ;;;
  let* result := match predict E with
                 | Some r => ret r
                 | None => raise (Exception "predict")
                 end in
  let temp_video_path := match result with
                         | HfDict video => video
                         | HfPath path => path
                         end in
  os_makedirs E ;;;
  let permanent_video_path := lit "./videos" ++ lit "/" ++ job_id ++ lit ".mp4" in
  let* present := os_path_exists temp_video_path in
  if (present : bool) then
    shutil_copy2 E temp_video_path permanent_video_path ;;;
    update_job_data job_id
      (upd_completed msg_generated
                     (lit "/api/download/" ++ job_id) permanent_video_path)
  else raise (Exception "HuggingFace video not found").

Definition use_huggingface_fallback (E : env) (job_id prompt : pystr) : M unit :=
  try_except (huggingface_tier E job_id prompt)
             (λ _, use_mock_video_fallback E job_id prompt).

(** Body of the [try] of [video_generation_process]. *)
Definition vidu_tier (E : env) (job_id prompt : pystr) : M unit :=
  update_job_data job_id upd_connecting ;;;
  (if negb (val_truthy (VIDU_API_KEY E))
   then raise (Exception "Missing Vidu API key") else ret tt) ;;;
  let* response := match text2video E with
                   | NoReply => raise (Exception "requests")
                   | Reply status_code json => ret (status_code, json)
                   end in
  let* returned :=
    (if bool_decide (fst response = 200) then
       let* task_id := match snd response with
                       | Some task_id => ret task_id
                       | None => raise (Exception "json")
                       end in
       if negb (val_truthy task_id)
       then raise (Exception "No task_id in Vidu API response")
       else
         let* video_path := poll_vidu_task E job_id in
         match video_path with
         | Some path =>
             if str_truthy path then
               update_job_data job_id
                 (upd_completed msg_generated
                    (PUBLIC_BASE_URL ++ lit "/api/download/" ++ job_id) path) ;;;
               ret true
             else ret false
         | None => ret false
         end
     else ret false) in
  if (returned : bool) then ret tt
  else raise (Exception "Vidu API failed").

Definition video_generation_process (E : env) (job_id prompt : pystr) : M unit :=
  try_except (vidu_tier E job_id prompt)
             (λ _, use_huggingface_fallback E job_id prompt).

(** ** The WhatsApp bot *)

(** A message handed to [twilio_client.messages.create]; [msg_media_url]
    is the one element of the [media_url] list when there is one. *)
Record message := Message {
  msg_to : pystr;
  msg_body : pystr;
  msg_media_url : option pystr
}.

(** The state of the bot: the state of the core, the module variable
    [twilio_client] ([false] stands for [None]), the outcome of the coming
    calls to Twilio ([true]: the call raises), and two ghost lists: every
    call of [send_whatsapp_message] with whether Twilio accepted the
    message, and the tasks handed to [background_tasks.add_task]. *)
Record bot := Bot {
  core : world;
  twilio_client : bool;
  twilio_faults : list bool;
  notifications : list (message * bool);
  background : list (pystr * pystr)
}.

Definition B (A : Type) : Type := bot → result A * bot.

Definition bret {A} (a : A) : B A := λ b, (Ok a, b).

Definition bbind {A C} (m : B A) (f : A → B C) : B C :=
  λ b, match m b with
       | (Ok a, b') => f a b'
       | (Raise e, b') => (Raise e, b')
       end.

Definition btry {A} (body : B A) (handler : exn → B A) : B A :=
  λ b, match body b with
       | (Ok a, b') => (Ok a, b')
       | (Raise e, b') => handler e b'
       end.

(** A computation of the core, run on the core part of the bot. *)
Definition lift {A} (m : M A) : B A :=
  λ b, match m (core b) with
       | (r, w') => (r, Bot w' (twilio_client b) (twilio_faults b)
                            (notifications b) (background b))
       end.

Notation "'let+' x ':=' m 'in' k" := (bbind m (λ x, k))
  (at level 10, x name, m at level 100, k at level 200).
Notation "m ;;+ k" := (bbind m (λ _, k))
  (at level 100, right associativity).

(** [twilio_client.messages.create] on the message data: raises when
    there is no client (an attribute of [None]) and when Twilio refuses. *)
Definition messages_create (m : message) : B unit :=
  λ b, if twilio_client b then
         match twilio_faults b with
         | true :: l =>
             (Raise (Exception "twilio"),
              Bot (core b) (twilio_client b) l (notifications b) (background b))
         | _ =>
             (Ok tt,
              Bot (core b) (twilio_client b) (tail (twilio_faults b))
                  (notifications b) (background b))
         end
       else (Raise (Exception "AttributeError"), b).

Definition note (m : message) (accepted : bool) : B unit :=
  λ b, (Ok tt, Bot (core b) (twilio_client b) (twilio_faults b)
                   (notifications b ++ [(m, accepted)]) (background b)).

(** [send_whatsapp_message(to, body, media_url)]; [media_url] is [None]
    by default and left out of the message when it is not true. *)
Definition send_whatsapp_message (to body : pystr) (media_url : option pystr)
  : B unit :=
  let m := Message to body
             (match media_url with
              | Some u => if str_truthy u then Some u else None
              | None => None
              end) in
  btry (messages_create m ;;+ note m true)
       (λ _, note m false).

Definition nl : pystr := [10%N].

(** [s.startswith(p)] and [s[n:]]. *)
Definition startswith (s p : pystr) : bool :=
  bool_decide (take (List.length p) s = p).

Definition text_help : pystr :=
  129302%N :: lit " **AI Video Bot Help**" ++ nl ++ nl
  ++ lit "**Generate Videos:**" ++ nl
  ++ lit "/generate <your prompt>" ++ nl ++ nl
  ++ lit "**Commands:**" ++ nl
  ++ lit "/help - Show this help" ++ nl
  ++ lit "/status - Bot status" ++ nl ++ nl
  ++ lit "**Examples:**" ++ nl
  ++ lit "/generate A golden retriever playing in a park" ++ nl
  ++ lit "/generate Astronaut floating in space" ++ nl
  ++ lit "/generate Ocean waves at sunset" ++ nl ++ nl
  ++ lit "**Tips:**" ++ nl
  ++ 8226%N :: lit " Be descriptive (min 5 words)" ++ nl
  ++ 8226%N :: lit " Include actions, settings, objects" ++ nl
  ++ 8226%N :: lit " Videos take 15-30 seconds to generate".

Definition text_connected (up : bool) : pystr :=
  if up then 9989%N :: lit " Connected" else 10060%N :: lit " Disconnected".

Definition text_status (redis_up twilio_up : bool) : pystr :=
  128994%N :: lit " **Bot Status: Online**" ++ nl ++ nl
  ++ lit "**Services:**" ++ nl
  ++ lit "Redis: " ++ text_connected redis_up ++ nl
  ++ lit "Twilio: " ++ text_connected twilio_up ++ nl
  ++ lit "Video API: " ++ 9989%N :: lit " Ready" ++ nl ++ nl
  ++ lit "Type /help for usage instructions".

Definition text_unknown : pystr :=
  10067%N :: lit " Unknown command" ++ nl ++ nl
  ++ lit "Available commands:" ++ nl
  ++ lit "/help - Show help" ++ nl
  ++ lit "/generate <prompt> - Create video" ++ nl
  ++ lit "/status - Check status" ++ nl ++ nl
  ++ lit "Example: /generate A cat dancing".

Definition text_too_short : pystr :=
  129300%N :: lit " Your prompt seems too short!" ++ nl ++ nl
  ++ lit "Try: /generate A cute cat playing piano in space" ++ nl ++ nl
  ++ lit "Make it more descriptive for better results!".

Definition text_welcome : pystr :=
  128075%N :: lit " Welcome to the AI Video Bot!" ++ nl ++ nl
  ++ lit "To generate a video, use:" ++ nl
  ++ lit "/generate <your prompt>" ++ nl ++ nl
  ++ lit "Example:" ++ nl
  ++ lit "/generate A cat playing piano in space" ++ nl ++ nl
  ++ lit "Other commands:" ++ nl
  ++ lit "/help - Show help" ++ nl
  ++ lit "/status - Bot status".

Definition text_usage : pystr :=
  10067%N :: lit " Use: /generate <your prompt>" ++ nl ++ nl
  ++ lit "Example: /generate A sunset over mountains".

Definition text_went_wrong : pystr :=
  10060%N :: lit " Sorry, something went wrong. Please try again.".

Definition text_generating (prompt : pystr) : pystr :=
  127916%N :: lit " Generating your video: '" ++ prompt ++ lit "'" ++ nl ++ nl
  ++ lit "This usually takes 15-30 seconds...".

Definition text_working : pystr :=
  129302%N :: lit " AI model is working on your video...".

Definition text_ready (prompt video_url : pystr) : pystr :=
  9989%N :: lit " Your AI video is ready!" ++ nl ++ nl
  ++ 127909%N :: lit " Generated for: " ++ 34%N :: prompt ++ 34%N :: nl ++ nl
  ++ lit "Here's your video: " ++ video_url.

Definition text_generation_failed : pystr :=
  10060%N :: lit " Video generation failed. Please try again with a different prompt.".

Definition text_sorry_failed : pystr :=
  10060%N :: lit " Sorry, video generation failed. Please try again.".

(** What the webhook returns: the ["status"] entry and, in two places, a
    ["message"] entry that is a fixed text or [str(e)]. *)
Inductive reply_detail :=
| NoDetail
| Detail (text : pystr)
| DetailOf (e : exn).

Record webhook_reply := {
  reply_status : pystr;
  reply_message : reply_detail
}.

Section Bot.

(** [str.lower] of the Python library. *)
Variable lower : pystr → pystr.

Definition handle_whatsapp_command (command user_phone : pystr) : B pystr :=
  let command := strip (lower command) in
  if bool_decide (command = lit "/help") then bret text_help
  else if bool_decide (command = lit "/status") then
    λ b, (Ok (text_status (redis_client (st (core b))) (twilio_client b)), b)
  else bret text_unknown.

Definition add_task (prompt user_phone : pystr) : B unit :=
  λ b, (Ok tt, Bot (core b) (twilio_client b) (twilio_faults b)
                   (notifications b) (background b ++ [(prompt, user_phone)])).

(** [whatsapp_webhook]; [To] and [MessageSid] are not used by the body. *)
Definition whatsapp_webhook (From To Body MessageSid : pystr)
  : B webhook_reply :=
  let+ client := λ b, (Ok (twilio_client b), b) in
  if negb client then
    bret {| reply_status := lit "error";
            reply_message := Detail (lit "Service unavailable") |}
  else
    let user_phone := From in
    let message_text := strip Body in
    btry
      (if startswith message_text (lit "/generate ") then
         let prompt := strip (drop 10 message_text) in
         if (List.length prompt <? 5)%nat then
           send_whatsapp_message user_phone text_too_short None ;;+
           bret {| reply_status := lit "prompt_too_short";
                   reply_message := NoDetail |}
         else
           add_task prompt user_phone ;;+
           bret {| reply_status := lit "processing";
                   reply_message := NoDetail |}
       else if startswith message_text (lit "/") then
         let+ response := handle_whatsapp_command message_text user_phone in
         send_whatsapp_message user_phone response None ;;+
         bret {| reply_status := lit "success"; reply_message := NoDetail |}
       else if negb (startswith message_text (lit "/generate")) then
         send_whatsapp_message user_phone text_welcome None ;;+
         bret {| reply_status := lit "help_sent"; reply_message := NoDetail |}
       else
         send_whatsapp_message user_phone text_usage None ;;+
         bret {| reply_status := lit "invalid_command";
                 reply_message := NoDetail |})
      (λ e,
         send_whatsapp_message user_phone text_went_wrong None ;;+
         bret {| reply_status := lit "error"; reply_message := DetailOf e |}).

End Bot.

Definition whatsapp_job_data (prompt user_phone : pystr) : record :=
  {[ "status" := PyStr (lit "processing");
     "message" := PyStr (lit "Processing request...");
     "video_url" := PyNone;
     "prompt" := PyStr prompt;
     "user_phone" := PyStr user_phone ]}.

(** The link the bot sends; the source writes it with a leading space. *)
Definition whatsapp_video_url (job_id : pystr) : pystr :=
  lit " https://bdcc07030d0e.ngrok-free.app/api/download/" ++ job_id.

(** [handle_whatsapp_video_generation]; [uuid4] is the value
    [str(uuid.uuid4())] draws. *)
Definition handle_whatsapp_video_generation (E : env) (uuid4 : pystr)
    (prompt user_phone : pystr) : B unit :=
  btry
    (send_whatsapp_message user_phone (text_generating prompt) None ;;+
     let job_id := uuid4 in
     let job_data := whatsapp_job_data prompt user_phone in
     lift (store_job_data job_id job_data) ;;+
     lift (sleep 5) ;;+
     send_whatsapp_message user_phone text_working None ;;+
     lift (video_generation_process E job_id prompt) ;;+
     let+ final_job_data := lift (get_job_data job_id) in
     let+ completed :=
       (if job_data_falsy final_job_data then bret false
        else
          let+ s := lift (dict_item (default ∅ final_job_data) "status") in
          bret (bool_decide (s = PyStr (lit "completed")))) in
     if (completed : bool) then
       let video_url := whatsapp_video_url job_id in
       send_whatsapp_message user_phone (lit "Here's your video:")
                             (Some video_url) ;;+
       send_whatsapp_message user_phone (text_ready prompt video_url) None
     else
       send_whatsapp_message user_phone text_generation_failed None)
    (λ _, send_whatsapp_message user_phone text_sorry_failed None).

(** * Vocabulary of the properties *)

(** ** The two stores *)

(** The record the Redis server holds for a job, and the one the
    in-process map holds. *)
Definition redis_lookup (s : store) (job_id : pystr) : option record :=
  snd <$> redis_db s !! job_key job_id.

Definition memory_lookup (s : store) (job_id : pystr) : option record :=
  VIDEO_GENERATION_STATUS s !! job_id.

(** A store holds the record [r] for the job. *)
Definition holds (s : store) (job_id : pystr) (r : record) : Prop :=
  redis_lookup s job_id = Some r ∨ memory_lookup s job_id = Some r.

(** The stores after a write to Redis, and after a write to the
    in-process map. *)
Definition put_redis (job_id : pystr) (data : record) (s : store) : store :=
  Store (redis_client s) (<[job_key job_id := (3600, data)]> (redis_db s))
        (VIDEO_GENERATION_STATUS s).

Definition put_memory (job_id : pystr) (data : record) (s : store) : store :=
  Store (redis_client s) (redis_db s)
        (<[job_id := data]> (VIDEO_GENERATION_STATUS s)).

(** The next Redis call raises. *)
Definition next_call_fails (w : world) : bool :=
  match redis_faults w with
  | true :: _ => true
  | _ => false
  end.

(** The state once a Redis call took its outcome off the schedule, and
    once [get_job_data] ran (it calls Redis only when it is selected). *)
Definition after_call (w : world) : world :=
  with_faults w (tail (redis_faults w)).

Definition after_get (w : world) : world :=
  if redis_client (st w) then after_call w else w.

(** What [get_job_data] answers in a given state. *)
Definition visible (w : world) (job_id : pystr) : option record :=
  if redis_client (st w) && negb (next_call_fails w) then
    match redis_lookup (st w) job_id with
    | Some d => Some d
    | None => memory_lookup (st w) job_id
    end
  else memory_lookup (st w) job_id.

(** The object [get_job_data] hands to [update_job_data]. *)
Definition found (w : world) (job_id : pystr) : option (record * origin) :=
  if redis_client (st w) && negb (next_call_fails w) then
    match redis_lookup (st w) job_id with
    | Some d => Some (d, Fresh)
    | None => (λ d, (d, Shared)) <$> memory_lookup (st w) job_id
    end
  else (λ d, (d, Shared)) <$> memory_lookup (st w) job_id.

(** The stores after [store_job_data] ran in state [w] on the stores [s]. *)
Definition stored_in (w : world) (job_id : pystr) (data : record) (s : store)
  : store :=
  if redis_client (st w) && negb (next_call_fails w)
  then put_redis job_id data s
  else put_memory job_id data s.

(** The state after an [update_job_data] that found the non-empty record
    [d], coming from [o]. *)
Definition updated (job_id : pystr) (updates : record) (d : record)
    (o : origin) (w : world) : world :=
  let d' := dict_update d updates in
  let w1 := after_get w in
  let s1 := match o with
            | Shared => put_memory job_id d' (st w)
            | Fresh => st w
            end in
  World (stored_in w1 job_id d' s1) (files w)
        (redis_faults (after_get w1)) (scheduled w)
        (update_log w ++ [UpdateEvent (st w) job_id updates d'])
        (queries w) (slept w).

(** The stores after an update that found [d]: the merged record is
    held, nothing else changed for this job but records replaced by it,
    and the other jobs are untouched. *)
Definition merged_into (job_id : pystr) (d' : record) (s s' : store) : Prop :=
  holds s' job_id d'
  ∧ (∀ r, holds s' job_id r → r = d' ∨ holds s job_id r)
  ∧ (∀ job_id', job_id' ≠ job_id →
       redis_lookup s' job_id' = redis_lookup s job_id'
       ∧ memory_lookup s' job_id' = memory_lookup s job_id')
  ∧ redis_client s' = redis_client s.

(** No coming call to Redis fails (nothing is asked when Redis is not
    selected). *)
Definition redis_reliable (w : world) : Prop :=
  redis_client (st w) = true → Forall (λ b, b = false) (redis_faults w).

(** The store answers with a non-empty record for the job and stays
    reliable. *)
Definition tracked (job_id : pystr) (w : world) : Prop :=
  redis_reliable w ∧ ∃ d, visible w job_id = Some d ∧ d ≠ ∅.

(** ** The lifecycle handlers *)

(** The prompt is empty or made of white space only. *)
Definition blank (s : pystr) : Prop := Forall (λ c, py_isspace c = true) s.

(** The errors of the specification, as the handlers raise them. *)
Definition ValidationError : exn := HTTPException 400 "Prompt is required".
Definition NotFoundError : exn := HTTPException 404 "Job ID not found".
Definition NotReadyError : exn := HTTPException 400 "Video not ready for download".
Definition MissingArtifactError : exn := HTTPException 404 "Video file not found".

(** The Redis write of the creation succeeds and the read that follows
    raises. *)
Definition read_after_write_fails (w : world) : bool :=
  redis_client (st w)
  && match redis_faults w with
     | false :: true :: _ => true
     | _ => false
     end.

(** The answer of [get_status] for a job just created. *)
Definition processing_status (job_id : pystr) : Status_Response :=
  {| status_job_id := job_id;
     status_status := PyStr (lit "processing");
     status_message := PyStr (lit "Video generation has started");
     status_video_url := PyNone |}.


(** ** The polling loop *)

(** The state after a status query was sent, and after [k] queries each
    followed by the five-second pause. *)
Definition counted (w : world) : world :=
  World (st w) (files w) (redis_faults w) (scheduled w) (update_log w)
        (S (queries w)) (slept w).

Definition advance (k : nat) (w : world) : world :=
  World (st w) (files w) (redis_faults w) (scheduled w) (update_log w)
        (k + queries w) (slept w + 5 * Z.of_nat k).

(** The remote task is reported as failed. *)
Definition reports_failed (r : http_reply creations_json) : Prop :=
  ∃ data, r = Reply 200 (Some data) ∧ state data = lit "failed".

(** The query itself failed: no reply, a status code other than 200, or
    a body that cannot be read. *)
Definition transient_failure (r : http_reply creations_json) : Prop :=
  match r with
  | NoReply => True
  | Reply status_code json => status_code ≠ 200 ∨ json = None
  end.

(** The task is neither done nor failed. *)
Definition in_progress (r : http_reply creations_json) : Prop :=
  ∃ data, r = Reply 200 (Some data)
          ∧ state data ≠ lit "success" ∧ state data ≠ lit "failed".

(** The turn at this reply pauses and goes on. *)
Definition pending (r : http_reply creations_json) : Prop :=
  transient_failure r ∨ in_progress r.

(** The first artifact of the reply carries no usable URL: there is no
    artifact, or its [url] is missing, null or empty. *)
Definition no_artifact_url (l : list pyval) : Prop :=
  match l with
  | PyStr (_ :: _) :: _ => False
  | _ => True
  end.

(** ** The orchestration *)

(** The part of the state the job store reads and writes. *)
Definition view (w : world) : store * list bool * list update_event :=
  (st w, redis_faults w, update_log w).

(** A sequence of updates of one job, one after the other. *)
Definition run_updates (job_id : pystr) (us : list record) (w : world) : world :=
  fold_left (λ w u, snd (update_job_data job_id u w)) us w.

(** The update that marks the job completed, whatever message, link and
    path it carries. *)
Definition completes (u : record) : Prop :=
  ∃ message video_url video_path,
    u = upd_completed message video_url video_path.

(** The updates one run of the orchestration issues: the connecting
    message first, the Hugging Face message if that tier got as far, and
    last either a completion or the error. *)
Definition orchestration_updates (us : list record) : Prop :=
  ∃ mid last,
    us = upd_connecting :: mid ++ [last]
    ∧ (mid = [] ∨ mid = [upd_huggingface])
    ∧ (completes last ∨ last = upd_error).

(** The status of a record. *)
Definition status_is (v : pystr) (r : record) : Prop :=
  r !! "status" = Some (PyStr v).

Definition terminal (r : record) : Prop :=
  status_is (lit "completed") r ∨ status_is (lit "error") r.

Definition processing (r : record) : Prop := status_is (lit "processing") r.

(** No store holds a record of the job whose status is terminal. *)
Definition no_terminal (s : store) (job_id : pystr) : Prop :=
  ∀ r, holds s job_id r → ¬ terminal r.

(** The update leaves the status alone or sets it to [processing]. *)
Definition keeps_open (u : record) : Prop :=
  u !! "status" = None ∨ u !! "status" = Some (PyStr (lit "processing")).

(** The update sets a terminal status. *)
Definition closes (u : record) : Prop :=
  u !! "status" = Some (PyStr (lit "completed"))
  ∨ u !! "status" = Some (PyStr (lit "error")).

(** Every record a store holds for the job carries the prompt [p]. *)
Definition prompt_is (p : pystr) (s : store) (job_id : pystr) : Prop :=
  ∀ r, holds s job_id r → r !! "prompt" = Some (PyStr p).

(** ** Sample states and environments *)

Module Sample.

Definition job : pystr := lit "0b7c5a3e-1d2f-4c6b-9a8e-5f4d3c2b1a09".

Definition prompt : pystr := lit "A cat playing piano in space".

(** Nothing stored, no file on disk, Redis faults as given. *)
Definition empty_world (client : bool) (faults : list bool) : world :=
  World (Store client ∅ ∅) ∅ faults [] [] 0 0.

(** No credential, no network, no Hugging Face: every tier fails when the
    placeholder file is missing. *)
Definition offline : env :=
  {| VIDU_API_KEY := PyNone;
     text2video := NoReply;
     tasks_creations := λ _, NoReply;
     content_of := λ _, None;
     makedirs_ok := true;
     writable := λ _, true;
     hf_login_ok := true;
     predict := None |}.

(** The state right after the job was created. *)
Definition created (client : bool) (faults : list bool) : world :=
  snd (generate_video job prompt (empty_world client faults)).


End Sample.

Module PollSample.

(** The remote task reports [success] and lists no artifact. *)
Definition done_without_artifact : env :=
  {| VIDU_API_KEY := PyStr (lit "key");
     text2video := Reply 200 (Some (PyStr (lit "task-1")));
     tasks_creations :=
       λ _, Reply 200 (Some {| state := lit "success"; creations := [] |});
     content_of := λ _, None;
     makedirs_ok := true;
     writable := λ _, true;
     hf_login_ok := true;
     predict := None |}.

End PollSample.

Module Tier1Sample.

(** Vidu accepts the task, reports it in progress twice and then done,
    with one artifact of three bytes. *)
Definition artifact_url : pystr := lit "https://cdn.vidu.example/v.mp4".

Definition env_tier1 : env :=
  {| VIDU_API_KEY := PyStr (lit "key");
     text2video := Reply 200 (Some (PyStr (lit "task-1")));
     tasks_creations :=
       λ attempt,
         if (attempt <? 2)%nat
         then Reply 200 (Some {| state := lit "processing"; creations := [] |})
         else Reply 200 (Some {| state := lit "success";
                                 creations := [PyStr artifact_url] |});
     content_of := λ url, if decide (url = artifact_url)
                          then Some [7; 8; 9]%N else None;
     makedirs_ok := true;
     writable := λ _, true;
     hf_login_ok := false;
     predict := None |}.

Definition finish : world :=
  snd (video_generation_process env_tier1 Sample.job Sample.prompt
         (Sample.created true [])).

End Tier1Sample.

Module Tier2Sample.

(** Vidu cannot be reached; Hugging Face leaves a two-byte file. *)
Definition temp_file : pystr := lit "/tmp/gradio/out.mp4".

Definition env_tier2 : env :=
  {| VIDU_API_KEY := PyStr (lit "key");
     text2video := NoReply;
     tasks_creations := λ _, NoReply;
     content_of := λ _, None;
     makedirs_ok := true;
     writable := λ _, true;
     hf_login_ok := true;
     predict := Some (HfPath temp_file) |}.

Definition start : world :=
  snd (generate_video Sample.job Sample.prompt
         (World (Store false ∅ ∅) {[ temp_file := [0; 1]%N ]} [] [] [] 0 0)).

Definition finish : world :=
  snd (video_generation_process env_tier2 Sample.job Sample.prompt start).

End Tier2Sample.

(** ** Further vocabulary: artifacts on disk *)

(** The placeholder the third tier copies. *)
Definition placeholder_file : pystr := lit "./videos/mock_video.mp4".

(** The path [client.predict] hands back, if it returns. *)
Definition hf_temp (E : env) : option pystr :=
  match predict E with
  | Some (HfDict video) => Some video
  | Some (HfPath path) => Some path
  | None => None
  end.

(** Everything the Hugging Face tier needs is there: the login and the
    prediction work, the result names an existing file holding [body]
    that is not the job's own artifact, and the artifact can be written. *)
Definition hf_ready (E : env) (job_id : pystr) (w : world) (body : list N)
  : Prop :=
  hf_login_ok E = true
  ∧ makedirs_ok E = true
  ∧ writable E (video_file job_id) = true
  ∧ ∃ temp, hf_temp E = Some temp
            ∧ temp ≠ []
            ∧ temp ≠ video_file job_id
            ∧ files w !! temp = Some body.

(** Everything the placeholder tier needs is there. *)
Definition placeholder_ready (E : env) (job_id : pystr) (w : world)
    (body : list N) : Prop :=
  files w !! placeholder_file = Some body
  ∧ placeholder_file ≠ video_file job_id
  ∧ writable E (video_file job_id) = true.

(** The submission to Vidu is accepted: a credential is configured and
    the reply has code 200 and a task id. *)
Definition submission_accepted (E : env) : Prop :=
  val_truthy (VIDU_API_KEY E) = true
  ∧ ∃ task_id, text2video E = Reply 200 (Some task_id)
               ∧ val_truthy task_id = true.

(** The submission to Vidu fails: no credential, no reply, a code other
    than 200, an unreadable body or no task id in it. *)
Definition submission_fails (E : env) : Prop :=
  val_truthy (VIDU_API_KEY E) = false
  ∨ text2video E = NoReply
  ∨ ∃ code json, text2video E = Reply code json
                 ∧ (code ≠ 200 ∨ json = None
                    ∨ ∃ task_id, json = Some task_id
                                 ∧ val_truthy task_id = false).

(** The reply reports success and its first artifact has the URL [url]. *)
Definition reports_success (r : http_reply creations_json) (url : pystr)
  : Prop :=
  ∃ data l, r = Reply 200 (Some data)
            ∧ state data = lit "success"
            ∧ creations data = PyStr url :: l
            ∧ url ≠ [].

(** The answer of [get_status] for a completed job. *)
Definition completed_status (job_id message video_url : pystr)
  : Status_Response :=
  {| status_job_id := job_id;
     status_status := PyStr (lit "completed");
     status_message := PyStr message;
     status_video_url := PyStr video_url |}.

(** The answer of [download_video] for the job's artifact. *)
Definition artifact_response (job_id : pystr) (body : list N) : FileResponse :=
  {| file_path := video_file job_id;
     media_type := lit "video/mp4";
     content_disposition := lit "inline; filename=" ++ job_id ++ lit ".mp4";
     file_body := body |}.

(** The answer of [get_status] for a job all tiers failed on. *)
Definition error_status (job_id : pystr) : Status_Response :=
  {| status_job_id := job_id;
     status_status := PyStr (lit "error");
     status_message := PyStr msg_all_failed;
     status_video_url := PyNone |}.

(** The updates before the last one of a run. *)
Definition opening_updates (pre : list record) : Prop :=
  pre = [upd_connecting] ∨ pre = [upd_connecting; upd_huggingface].

Module TimeoutSample.

(** Vidu accepts the task and never answers a status query. *)
Definition silent : env :=
  {| VIDU_API_KEY := PyStr (lit "key");
     text2video := Reply 200 (Some (PyStr (lit "task-1")));
     tasks_creations := λ _, NoReply;
     content_of := λ _, None;
     makedirs_ok := true;
     writable := λ _, true;
     hf_login_ok := false;
     predict := None |}.

End TimeoutSample.

Module Tier3Sample.

(** Nothing works but the placeholder, which holds four bytes. *)
Definition start : world :=
  snd (generate_video Sample.job Sample.prompt
         (World (Store true ∅ ∅) {[ placeholder_file := [1; 2; 3; 4]%N ]}
                [] [] [] 0 0)).

Definition finish : world :=
  snd (video_generation_process Sample.offline Sample.job Sample.prompt start).

End Tier3Sample.

(** ** Further vocabulary: the bot *)

(** The [media_url] that goes into the message. *)
Definition media_of (media_url : option pystr) : option pystr :=
  match media_url with
  | Some u => if str_truthy u then Some u else None
  | None => None
  end.

(** Twilio takes the next message: there is a client and the call does
    not fail. *)
Definition accepts (b : bot) : bool :=
  twilio_client b
  && negb (match twilio_faults b with
           | true :: _ => true
           | _ => false
           end).

(** The bot after one call of [send_whatsapp_message]. *)
Definition after_send (m : message) (b : bot) : bot :=
  Bot (core b) (twilio_client b)
      (if twilio_client b then tail (twilio_faults b) else twilio_faults b)
      (notifications b ++ [(m, accepts b)]) (background b).

Definition with_core (b : bot) (w : world) : bot :=
  Bot w (twilio_client b) (twilio_faults b) (notifications b) (background b).

(** The messages handed to [send_whatsapp_message] so far, in order. *)
Definition messages (b : bot) : list message := List.map fst (notifications b).

(** The statuses the webhook answers with. *)
Definition webhook_statuses : list pystr :=
  [lit "error"; lit "prompt_too_short"; lit "processing"; lit "success";
   lit "help_sent"].

(** The core state in which the bot starts the orchestration of a job:
    the record is stored and five seconds have been slept. *)
Definition whatsapp_start (job_id prompt user_phone : pystr) (w : world)
  : world :=
  snd (sleep 5 (snd (store_job_data job_id
                       (whatsapp_job_data prompt user_phone) w))).

(** The core state when the orchestration of the job is over. *)
Definition whatsapp_finish (E : env) (job_id prompt user_phone : pystr)
    (w : world) : world :=
  snd (video_generation_process E job_id prompt
         (whatsapp_start job_id prompt user_phone w)).

Definition msg_generating (prompt user_phone : pystr) : message :=
  Message user_phone (text_generating prompt) None.

Definition msg_working (user_phone : pystr) : message :=
  Message user_phone text_working None.

Definition msg_video (job_id user_phone : pystr) : message :=
  Message user_phone (lit "Here's your video:")
          (Some (whatsapp_video_url job_id)).

Definition msg_ready (job_id prompt user_phone : pystr) : message :=
  Message user_phone (text_ready prompt (whatsapp_video_url job_id)) None.

Definition msg_failed (user_phone : pystr) : message :=
  Message user_phone text_generation_failed None.

Definition msg_sorry (user_phone : pystr) : message :=
  Message user_phone text_sorry_failed None.

Module BotSample.

(** [str.lower] on ASCII letters, the identity elsewhere. *)
Definition ascii_lower (s : pystr) : pystr :=
  List.map (λ c, if ((65 <=? c) && (c <=? 90))%N then (c + 32)%N else c) s.

Definition phone : pystr := lit "whatsapp:+15550100".

Definition idle (w : world) : bot := Bot w true [] [] [].

End BotSample.

(** The bot after the messages [ms] were handed to
    [send_whatsapp_message], one after the other. *)
Definition send_all (ms : list message) (b : bot) : bot :=
  fold_left (λ b m, after_send m b) ms b.

(** The bot when [handle_whatsapp_video_generation] has read the job's
    record back: two messages sent, the orchestration over. *)
Definition whatsapp_progress (E : env) (job_id prompt user_phone : pystr)
    (b : bot) : bot :=
  with_core (send_all [msg_generating prompt user_phone;
                       msg_working user_phone] b)
            (after_get (whatsapp_finish E job_id prompt user_phone (core b))).

(** The record says the job is completed. *)
Definition says_completed (o : option record) : Prop :=
  ∃ d, o = Some d ∧ d !! "status" = Some (PyStr (lit "completed")).

Module Tier3Bot.

(** An idle bot, nothing stored, only the placeholder on disk. *)
Definition start : bot :=
  BotSample.idle
    (World (Store true ∅ ∅) {[ placeholder_file := [1; 2; 3; 4]%N ]}
           [] [] [] 0 0).

End Tier3Bot.

(** * Properties *)

(** String literals stay folded in the proofs; [vm_compute] evaluates
    them where their characters matter. *)
Opaque lit.



(** ** Reading the stores *)

Lemma redis_call_eq w :
  redis_call w
  = (if next_call_fails w then Raise RedisError else Ok tt, after_call w).
Proof.
  unfold redis_call, next_call_fails, after_call.
  destruct (redis_faults w) as [|[] l]; reflexivity.
Qed.

Lemma store_job_data_eq job_id data w :
  store_job_data job_id data w
  = if redis_client (st w) then
      if next_call_fails w
      then (Ok tt, with_st (after_call w) (put_memory job_id data (st w)))
      else (Ok tt, with_st (after_call w) (put_redis job_id data (st w)))
    else (Ok tt, with_st w (put_memory job_id data (st w))).
Proof.
  unfold store_job_data, bind, gets, try_except, redis_setex, bind.
  destruct (redis_client (st w)) eqn:Hc; simpl.
  - rewrite redis_call_eq. destruct (next_call_fails w); reflexivity.
  - reflexivity.
Qed.

Lemma get_job_object_eq job_id w :
  get_job_object job_id w
  = if redis_client (st w) then
      (Ok (if next_call_fails w
           then (λ d, (d, Shared)) <$> memory_lookup (st w) job_id
           else match redis_lookup (st w) job_id with
                | Some d => Some (d, Fresh)
                | None => (λ d, (d, Shared)) <$> memory_lookup (st w) job_id
                end),
       after_call w)
    else (Ok ((λ d, (d, Shared)) <$> memory_lookup (st w) job_id), w).
Proof.
  unfold get_job_object, bind, gets, try_except, redis_get, bind.
  destruct (redis_client (st w)) eqn:Hc; simpl; [|reflexivity].
  rewrite redis_call_eq. unfold redis_lookup, memory_lookup, gets.
  destruct (next_call_fails w); simpl; [reflexivity|].
  destruct (redis_db (st w) !! job_key job_id) as [[t d]|]; reflexivity.
Qed.

Lemma get_job_data_eq job_id w :
  get_job_data job_id w = (Ok (visible w job_id), after_get w).
Proof.
  unfold get_job_data, bind, ret, visible, after_get.
  rewrite get_job_object_eq.
  destruct (redis_client (st w)); simpl.
  - destruct (next_call_fails w); simpl.
    + destruct (memory_lookup (st w) job_id); reflexivity.
    + destruct (redis_lookup (st w) job_id); simpl; [reflexivity|].
      destruct (memory_lookup (st w) job_id); reflexivity.
  - destruct (memory_lookup (st w) job_id); reflexivity.
Qed.

Lemma get_job_object_found job_id w :
  get_job_object job_id w = (Ok (found w job_id), after_get w).
Proof.
  rewrite get_job_object_eq. unfold found, after_get.
  destruct (redis_client (st w)), (next_call_fails w); reflexivity.
Qed.

Lemma visible_found w job_id : visible w job_id = fst <$> found w job_id.
Proof.
  unfold visible, found.
  destruct (redis_client (st w) && negb (next_call_fails w)).
  - destruct (redis_lookup (st w) job_id); [reflexivity|].
    destruct (memory_lookup (st w) job_id); reflexivity.
  - destruct (memory_lookup (st w) job_id); reflexivity.
Qed.

Lemma st_after_call w : st (after_call w) = st w.
Proof. reflexivity. Qed.

Lemma st_after_get w : st (after_get w) = st w.
Proof. unfold after_get. destruct (redis_client (st w)); reflexivity. Qed.

Lemma update_job_data_eq job_id updates w :
  update_job_data job_id updates w
  = (Ok tt,
     match found w job_id with
     | Some (d, o) =>
         if dict_truthy d then updated job_id updates d o w
         else after_get w
     | None => after_get w
     end).
Proof.
  unfold update_job_data, bind, gets. rewrite get_job_object_found.
  destruct (found w job_id) as [[d o]|]; [|reflexivity].
  destruct (dict_truthy d); [|reflexivity].
  destruct w as [[c db mem] fs fl sc lg q sl].
  unfold log_update, modify, updated, stored_in, memory_set, modify, ret.
  destruct o; simpl; rewrite store_job_data_eq;
    unfold after_get, after_call, next_call_fails; simpl;
    destruct c; simpl; try reflexivity;
    destruct fl as [|b1 [|[] fl]]; reflexivity.
Qed.

(** ** Stripping white space *)

Lemma lstrip_blank s : blank s → lstrip s = [].
Proof.
  induction 1 as [|c s Hc _ IH]; simpl; [reflexivity|].
  rewrite Hc. exact IH.
Qed.

Lemma lstrip_nil_blank s : lstrip s = [] → blank s.
Proof.
  unfold blank.
  induction s as [|c s IH]; simpl; intros H; [constructor|].
  destruct (py_isspace c) eqn:Hc; [|discriminate].
  constructor; [exact Hc | exact (IH H)].
Qed.

Lemma blank_lstrip s : blank (lstrip s) → blank s.
Proof.
  unfold blank.
  induction s as [|c s IH]; simpl; [auto|].
  destruct (py_isspace c) eqn:Hc; intros H.
  - constructor; [exact Hc | exact (IH H)].
  - exact H.
Qed.

Lemma strip_nil_iff s : strip s = [] ↔ blank s.
Proof.
  unfold strip, rstrip. split.
  - intros H. apply blank_lstrip.
    apply (f_equal reverse) in H. rewrite reverse_involutive in H.
    simpl in H. apply lstrip_nil_blank in H.
    unfold blank in *. rewrite Forall_reverse in H. exact H.
  - intros H. rewrite (lstrip_blank s H). reflexivity.
Qed.

Lemma str_truthy_strip s : str_truthy (strip s) = false ↔ blank s.
Proof.
  rewrite <- strip_nil_iff. destruct (strip s); simpl; split; congruence.
Qed.

(** ** Reading through to the in-process map *)

(** C10: with Redis selected, a read that finds no value under the job's
    key answers with the entry of the in-process map, whether the Redis
    call failed or not; in particular after the key's time-to-live ran
    out. *)
Theorem get_falls_through_on_miss (job_id : pystr) (w : world) :
  redis_client (st w) = true →
  redis_lookup (st w) job_id = None →
  fst (get_job_data job_id w) = Ok (memory_lookup (st w) job_id)
  ∧ fst (get_job_data job_id (redis_expire (job_key job_id) w))
    = Ok (memory_lookup (st w) job_id).
Proof.
  intros Hc Hmiss. rewrite !get_job_data_eq. unfold visible. simpl.
  rewrite Hc, Hmiss. unfold redis_lookup, memory_lookup. simpl.
  rewrite lookup_delete_eq. simpl.
  split.
  - destruct (next_call_fails w); reflexivity.
  - destruct (next_call_fails (redis_expire (job_key job_id) w)); reflexivity.
Qed.

Lemma get_falls_through_on_miss_witness :
  fst (get_job_data Sample.job
         (World (Store true ∅ {[ Sample.job := initial_job_data Sample.prompt ]})
                ∅ [] [] [] 0 0))
  = Ok (Some (initial_job_data Sample.prompt)).
Proof.
  refine (eq_trans
    (proj1 (get_falls_through_on_miss Sample.job
       (World (Store true ∅ {[ Sample.job := initial_job_data Sample.prompt ]})
              ∅ [] [] [] 0 0) _ _)) _).
  - reflexivity.
  - reflexivity.
  - unfold memory_lookup. simpl. rewrite lookup_singleton_eq. reflexivity.
Defined.

(** ** Job creation *)

(** C2: a prompt that is empty or made of white space only is refused
    with the validation error, and the whole state (both stores, the
    files, the scheduled tasks) is left as it was. *)
Theorem blank_prompt_rejected (uuid4 prompt : pystr) (w : world) :
  blank prompt →
  generate_video uuid4 prompt w = (Raise ValidationError, w).
Proof.
  intros Hb. unfold generate_video.
  apply str_truthy_strip in Hb. rewrite Hb. reflexivity.
Qed.

Lemma blank_prompt_rejected_witness :
  generate_video Sample.job [32; 9; 10; 160; 8195]%N
                 (Sample.empty_world true [])
  = (Raise ValidationError, Sample.empty_world true []).
Proof.
  apply (blank_prompt_rejected Sample.job [32; 9; 10; 160; 8195]%N).
  unfold blank. repeat constructor.
Defined.

Lemma initial_job_data_truthy prompt : dict_truthy (initial_job_data prompt) = true.
Proof.
  unfold dict_truthy. apply bool_decide_eq_true. intros H.
  apply (f_equal (λ m : record, m !! "status")) in H.
  unfold initial_job_data in H. rewrite lookup_empty in H.
  rewrite lookup_insert_eq in H. discriminate.
Qed.

Lemma get_status_eq job_id w :
  fst (get_status job_id w)
  = match visible w job_id with
    | Some d =>
        if dict_truthy d then
          match d !! "status", d !! "message" with
          | Some s, Some m =>
              Ok {| status_job_id := job_id; status_status := s;
                    status_message := m;
                    status_video_url := dict_get d "video_url" |}
          | None, _ => Raise (KeyError "status")
          | Some _, None => Raise (KeyError "message")
          end
        else Raise NotFoundError
    | None => Raise NotFoundError
    end.
Proof.
  unfold get_status, bind. rewrite get_job_data_eq.
  destruct (visible w job_id) as [d|]; simpl; [|reflexivity].
  destruct (dict_truthy d); simpl; [|reflexivity].
  unfold dict_item, bind, ret, raise.
  destruct (d !! "status"); simpl; [|reflexivity].
  destruct (d !! "message"); reflexivity.
Qed.

(** C3 (amended): for a prompt that is not blank and a job id no store
    knows, [generate_video] answers with that id and status processing,
    has written the initial record (to Redis when it is selected and the
    call succeeds, to the in-process map otherwise), has handed the
    orchestration to the event loop without running any of it, and
    [get_status] called next answers with the processing record, except
    when the Redis write succeeded and the Redis read that follows
    raises: then the read falls through to the in-process map, which does
    not hold the record, and the answer is the not-found error. *)
Theorem create_job_then_get (uuid4 prompt : pystr) (w : world) :
  ¬ blank prompt →
  redis_lookup (st w) uuid4 = None →
  memory_lookup (st w) uuid4 = None →
  fst (generate_video uuid4 prompt w)
  = Ok {| created_job_id := uuid4;
          created_status := lit "processing";
          created_message := lit "Video generation has started" |}
  ∧ st (snd (generate_video uuid4 prompt w))
    = (if redis_client (st w) && negb (next_call_fails w)
       then put_redis uuid4 (initial_job_data prompt) (st w)
       else put_memory uuid4 (initial_job_data prompt) (st w))
  ∧ scheduled (snd (generate_video uuid4 prompt w))
    = scheduled w ++ [(uuid4, prompt)]
  ∧ update_log (snd (generate_video uuid4 prompt w)) = update_log w
  ∧ fst (get_status uuid4 (snd (generate_video uuid4 prompt w)))
    = (if read_after_write_fails w
       then Raise NotFoundError
       else Ok (processing_status uuid4)).
Proof.
  intros Hnb Hr Hm. unfold generate_video.
  destruct (str_truthy (strip prompt)) eqn:Hs;
    [|apply str_truthy_strip in Hs; contradiction].
  simpl. unfold bind. rewrite store_job_data_eq.
  rewrite get_status_eq.
  destruct w as [[c db mem] fs fl sc lg q sl].
  unfold redis_lookup, memory_lookup in Hr, Hm. simpl in Hr, Hm.
  unfold read_after_write_fails, next_call_fails, visible, after_call,
    redis_lookup, memory_lookup, next_call_fails.
  destruct c; simpl.
  - destruct fl as [|[] [|[] fl]]; simpl;
      rewrite ?lookup_insert_eq, ?Hr, ?Hm; simpl;
      rewrite ?lookup_insert_eq, ?Hr, ?Hm, ?initial_job_data_truthy; simpl;
      repeat split; reflexivity.
  - rewrite lookup_insert_eq, initial_job_data_truthy.
    repeat split; reflexivity.
Qed.

Lemma sample_prompt_not_blank : ¬ blank Sample.prompt.
Proof. intros H. vm_compute in H. apply Forall_inv in H. discriminate H. Qed.

Lemma create_job_then_get_witness :
  fst (get_status Sample.job (Sample.created true [true; true]))
  = Ok (processing_status Sample.job).
Proof.
  refine (proj2 (proj2 (proj2 (proj2
    (create_job_then_get Sample.job Sample.prompt
       (Sample.empty_world true [true; true]) _ _ _))))).
  - exact sample_prompt_not_blank.
  - reflexivity.
  - reflexivity.
Defined.

(** C3 as stated fails: Redis is selected, the creation writes the record
    to Redis, and the Redis read of the [get_status] that follows raises;
    the handler then looks into the empty in-process map and answers "Job
    ID not found". *)
Lemma create_job_then_get_not_found :
  ¬ blank Sample.prompt
  ∧ fst (generate_video Sample.job Sample.prompt
           (Sample.empty_world true [false; true]))
    = Ok {| created_job_id := Sample.job;
            created_status := lit "processing";
            created_message := lit "Video generation has started" |}
  ∧ redis_lookup (st (Sample.created true [false; true])) Sample.job
    = Some (initial_job_data Sample.prompt)
  ∧ fst (get_status Sample.job (Sample.created true [false; true]))
    = Raise (HTTPException 404 "Job ID not found").
Proof.
  split; [exact sample_prompt_not_blank|].
  repeat split; vm_compute; reflexivity.
Qed.

(** ** Fetching the artifact *)

Lemma download_video_eq job_id w :
  fst (download_video job_id w)
  = match visible w job_id with
    | Some d =>
        if dict_truthy d then
          match d !! "status" with
          | Some s =>
              if bool_decide (s ≠ PyStr (lit "completed"))
              then Raise NotReadyError
              else
                match dict_get d "video_path" with
                | PyStr p =>
                    match p, files w !! p with
                    | _ :: _, Some body =>
                        Ok {| file_path := p;
                              media_type := lit "video/mp4";
                              content_disposition :=
                                lit "inline; filename=" ++ job_id ++ lit ".mp4";
                              file_body := body |}
                    | _, _ => Raise MissingArtifactError
                    end
                | PyNone => Raise MissingArtifactError
                end
          | None => Raise (KeyError "status")
          end
        else Raise NotFoundError
    | None => Raise NotFoundError
    end.
Proof.
  unfold download_video, bind. rewrite get_job_data_eq.
  destruct (visible w job_id) as [d|]; simpl; [|reflexivity].
  destruct (dict_truthy d); simpl; [|reflexivity].
  unfold dict_item, bind, ret, raise.
  destruct (d !! "status") as [s|]; simpl; [|reflexivity].
  destruct (bool_decide (s ≠ PyStr (lit "completed"))); simpl; [reflexivity|].
  destruct (dict_get d "video_path") as [|p]; simpl; [reflexivity|].
  destruct p as [|c p]; simpl; [reflexivity|].
  unfold os_path_exists, gets, bind. simpl.
  assert (Hf : files (after_get w) = files w).
  { unfold after_get. destruct (redis_client (st w)); reflexivity. }
  rewrite Hf.
  destruct (files w !! (c :: p)) as [body|] eqn:Hfile; simpl;
    rewrite ?Hf, ?Hfile; reflexivity.
Qed.

Lemma dict_truthy_lookup (d : record) k v : d !! k = Some v → dict_truthy d = true.
Proof.
  intros H. apply bool_decide_eq_true. intros ->.
  rewrite lookup_empty in H. discriminate.
Qed.



(** ** The polling loop *)

Lemma lit_success_failed : lit "success" ≠ lit "failed".
Proof. intros H. vm_compute in H. discriminate H. Qed.

Lemma download_vidu_video_returns E url job_id w :
  ∃ v, fst (download_vidu_video E url job_id w) = Ok v.
Proof.
  unfold download_vidu_video, try_except, bind, os_makedirs, write_file.
  destruct (content_of E url); [|eexists; reflexivity].
  destruct (makedirs_ok E); [|eexists; reflexivity].
  simpl. destruct (writable E (video_file job_id)); eexists; reflexivity.
Qed.

Lemma download_vidu_video_frame E url job_id w :
  let w' := snd (download_vidu_video E url job_id w) in
  st w' = st w ∧ redis_faults w' = redis_faults w
  ∧ update_log w' = update_log w ∧ scheduled w' = scheduled w
  ∧ queries w' = queries w ∧ slept w' = slept w.
Proof.
  unfold download_vidu_video, try_except, bind, os_makedirs, write_file.
  destruct (content_of E url); [|simpl; tauto].
  destruct (makedirs_ok E); [|simpl; tauto].
  simpl. destruct (writable E (video_file job_id)); simpl; tauto.
Qed.

Lemma poll_attempt_pause E job_id attempt w :
  transient_failure (tasks_creations E attempt)
  ∨ in_progress (tasks_creations E attempt) →
  poll_attempt E job_id attempt w = (Ok Continue, advance 1 w).
Proof.
  unfold poll_attempt, try_except, bind, count_query, modify, sleep, advance.
  intros [Ht|(data & -> & Hs & Hf)].
  - destruct (tasks_creations E attempt) as [|code json]; simpl in *.
    + reflexivity.
    + destruct (decide (code = 200)) as [->|Hne].
      * destruct Ht as [Hc| ->]; [contradiction|]. reflexivity.
      * rewrite bool_decide_eq_true_2 by exact Hne. reflexivity.
  - simpl. rewrite !bool_decide_eq_false_2 by tauto. reflexivity.
Qed.

Lemma poll_attempt_failed E job_id attempt w :
  reports_failed (tasks_creations E attempt) →
  poll_attempt E job_id attempt w = (Ok (Return None), counted w).
Proof.
  intros (data & Hr & Hs).
  unfold poll_attempt, try_except, bind, count_query, modify, counted.
  rewrite Hr. simpl. rewrite Hs.
  rewrite (bool_decide_eq_false_2 (lit "failed" = lit "success"))
    by (intros H; symmetry in H; exact (lit_success_failed H)).
  rewrite bool_decide_eq_true_2 by reflexivity. reflexivity.
Qed.

Lemma poll_attempt_no_artifact E job_id attempt w data :
  tasks_creations E attempt = Reply 200 (Some data) →
  state data = lit "success" →
  no_artifact_url (creations data) →
  poll_attempt E job_id attempt w = (Ok (Return None), counted w).
Proof.
  intros Hr Hs Hn.
  unfold poll_attempt, try_except, bind, count_query, modify, counted.
  rewrite Hr. simpl. rewrite Hs.
  rewrite bool_decide_eq_true_2 by reflexivity.
  destruct (creations data) as [|[|[|c u]] l]; simpl in *;
    try reflexivity; contradiction.
Qed.

Lemma poll_attempt_success E job_id attempt w data c u l :
  tasks_creations E attempt = Reply 200 (Some data) →
  state data = lit "success" →
  creations data = PyStr (c :: u) :: l →
  ∃ v, download_vidu_video E (c :: u) job_id (counted w)
       = (Ok v, snd (poll_attempt E job_id attempt w))
       ∧ fst (poll_attempt E job_id attempt w) = Ok (Return v).
Proof.
  intros Hr Hs Hc.
  unfold poll_attempt, try_except, bind, count_query, modify.
  rewrite Hr. simpl. rewrite Hs, Hc.
  rewrite bool_decide_eq_true_2 by reflexivity. simpl.
  fold (counted w).
  destruct (download_vidu_video_returns E (c :: u) job_id (counted w))
    as [v Hv].
  destruct (download_vidu_video E (c :: u) job_id (counted w)) as [r w'].
  simpl in *. subst r. exists v. split; reflexivity.
Qed.

(** C4 (amended): one turn of the polling loop.  A reply with state
    [success] whose first artifact carries a non-empty URL ends the loop
    with the result of fetching that URL; state [failed] ends it with no
    result; state [success] with no artifact, or with a first artifact
    lacking a URL, also ends it with no result, at once and without a
    pause; every other reply (another state, a status code other than
    200, an unreadable body, no reply at all) is pending: the turn
    pauses five seconds and the loop goes on. *)
Theorem poll_attempt_outcomes (E : env) (job_id : pystr) (attempt : nat)
    (w : world) :
  (∀ data c u l,
      tasks_creations E attempt = Reply 200 (Some data) →
      state data = lit "success" →
      creations data = PyStr (c :: u) :: l →
      ∃ v, download_vidu_video E (c :: u) job_id (counted w)
           = (Ok v, snd (poll_attempt E job_id attempt w))
           ∧ fst (poll_attempt E job_id attempt w) = Ok (Return v))
  ∧ (reports_failed (tasks_creations E attempt) →
       poll_attempt E job_id attempt w = (Ok (Return None), counted w))
  ∧ (∀ data,
       tasks_creations E attempt = Reply 200 (Some data) →
       state data = lit "success" →
       no_artifact_url (creations data) →
       poll_attempt E job_id attempt w = (Ok (Return None), counted w))
  ∧ (transient_failure (tasks_creations E attempt)
     ∨ in_progress (tasks_creations E attempt) →
       poll_attempt E job_id attempt w = (Ok Continue, advance 1 w)).
Proof.
  split; [|split; [|split]].
  - intros data c u l. apply poll_attempt_success.
  - apply poll_attempt_failed.
  - apply poll_attempt_no_artifact.
  - apply poll_attempt_pause.
Qed.

(** C4 as stated fails: on state [success] with zero artifacts the turn
    does not stay pending, it returns [None]; the loop stops after this
    one query without any pause. *)
Lemma poll_success_without_artifact_stops :
  tasks_creations PollSample.done_without_artifact 0
  = Reply 200 (Some {| state := lit "success"; creations := [] |})
  ∧ fst (poll_attempt PollSample.done_without_artifact Sample.job 0
           (Sample.empty_world false []))
    = Ok (Return None)
  ∧ fst (poll_attempt PollSample.done_without_artifact Sample.job 0
           (Sample.empty_world false []))
    ≠ Ok Continue
  ∧ queries (snd (poll_vidu_task PollSample.done_without_artifact Sample.job
                    (Sample.empty_world false []))) = 1%nat
  ∧ slept (snd (poll_vidu_task PollSample.done_without_artifact Sample.job
                  (Sample.empty_world false []))) = 0.
Proof.
  split; [reflexivity|].
  split; [vm_compute; reflexivity|].
  split; [vm_compute; intros H; discriminate H|].
  split; vm_compute; reflexivity.
Qed.

Lemma poll_attempt_counts E job_id attempt w :
  ∃ x, fst (poll_attempt E job_id attempt w) = Ok x
       ∧ queries (snd (poll_attempt E job_id attempt w)) = S (queries w).
Proof.
  unfold poll_attempt, try_except, bind, count_query, modify, sleep.
  destruct (tasks_creations E attempt) as [|code [data|]]; simpl;
    try (eexists; split; reflexivity).
  - destruct (bool_decide (code ≠ 200)); simpl;
      try (eexists; split; reflexivity).
    destruct (bool_decide (state data = lit "success")); simpl.
    + destruct (creations data) as [|[|[|c u]] l]; simpl;
        try (eexists; split; reflexivity).
      fold (counted w).
      destruct (download_vidu_video_returns E (c :: u) job_id (counted w))
        as [v Hv].
      pose proof (download_vidu_video_frame E (c :: u) job_id (counted w))
        as (_ & _ & _ & _ & Hq & _).
      destruct (download_vidu_video E (c :: u) job_id (counted w)) as [r w'].
      simpl in *. subst r. simpl. eexists. split; [reflexivity|exact Hq].
    + destruct (bool_decide (state data = lit "failed")); simpl;
        eexists; split; reflexivity.
  - destruct (bool_decide (code ≠ 200)); simpl; eexists; split; reflexivity.
Qed.

Lemma poll_from_bounded E job_id remaining :
  ∀ attempt w,
    (∃ v, fst (poll_from E job_id remaining attempt w) = Ok v)
    ∧ (queries (snd (poll_from E job_id remaining attempt w))
       ≤ remaining + queries w)%nat.
Proof.
  induction remaining as [|n IH]; intros attempt w; simpl.
  - split; [eexists; reflexivity|]. unfold ret. simpl. lia.
  - unfold bind.
    destruct (poll_attempt_counts E job_id attempt w) as (x & Hx & Hq).
    destruct (poll_attempt E job_id attempt w) as [r w1]. simpl in *.
    subst r. destruct x as [|v].
    + destruct (IH (S attempt) w1) as [Hok Hle]. split; [exact Hok|]. lia.
    + split; [eexists; reflexivity|]. unfold ret. simpl. lia.
Qed.

Lemma advance_S k w : advance k (advance 1 w) = advance (S k) w.
Proof. unfold advance. simpl. f_equal; lia. Qed.

Lemma advance_0 w : advance 0 w = w.
Proof. destruct w. unfold advance. simpl. f_equal. lia. Qed.

Lemma poll_from_pending E job_id k :
  ∀ remaining attempt w,
    (∀ i, (i < k)%nat → pending (tasks_creations E (attempt + i))) →
    poll_from E job_id (k + remaining) attempt w
    = poll_from E job_id remaining (attempt + k) (advance k w).
Proof.
  induction k as [|k IH]; intros remaining attempt w Hp.
  - simpl. rewrite Nat.add_0_r, advance_0. reflexivity.
  - simpl. unfold bind at 1.
    rewrite poll_attempt_pause
      by (specialize (Hp 0%nat); rewrite Nat.add_0_r in Hp; apply Hp; lia).
    rewrite IH.
    + rewrite advance_S. f_equal. lia.
    + intros i Hi. replace (S attempt + i)%nat with (attempt + S i)%nat by lia.
      apply Hp. lia.
Qed.

(** C5: [poll_vidu_task] sends at most 120 status queries and always
    returns (it never raises); when the [k]-th query (after [k] pending
    ones) reports [failed] it returns no result right there, with [k + 1]
    queries sent and no pause after the last; a transient failure of a
    query uses up exactly that turn and the five-second pause, after
    which the loop goes on with one turn less; and 120 pending turns end
    with no result, 120 queries sent and 600 seconds slept. *)
Theorem polling_budget (E : env) (job_id : pystr) (w : world) :
  (queries (snd (poll_vidu_task E job_id w)) ≤ 120 + queries w)%nat
  ∧ (∃ v, fst (poll_vidu_task E job_id w) = Ok v)
  ∧ (∀ k, (k < 120)%nat →
       (∀ i, (i < k)%nat → pending (tasks_creations E i)) →
       reports_failed (tasks_creations E k) →
       poll_vidu_task E job_id w = (Ok None, counted (advance k w)))
  ∧ (∀ remaining attempt w',
       transient_failure (tasks_creations E attempt) →
       poll_from E job_id (S remaining) attempt w'
       = poll_from E job_id remaining (S attempt) (advance 1 w'))
  ∧ ((∀ i, (i < 120)%nat → pending (tasks_creations E i)) →
       poll_vidu_task E job_id w = (Ok None, advance 120 w)).
Proof.
  unfold poll_vidu_task.
  destruct (poll_from_bounded E job_id 120 0%nat w) as [Hok Hle].
  split; [exact Hle|]. split; [exact Hok|]. clear Hok Hle.
  split; [|split].
  - intros k Hk Hp Hf.
    replace 120%nat with (k + S (119 - k))%nat by lia.
    rewrite poll_from_pending by exact Hp.
    cbn [poll_from]. unfold bind.
    rewrite poll_attempt_failed by exact Hf. reflexivity.
  - intros remaining attempt w' Ht.
    cbn [poll_from]. unfold bind at 1.
    rewrite poll_attempt_pause by (left; exact Ht). reflexivity.
  - intros Hp.
    change 120%nat with (120 + 0)%nat at 1.
    rewrite poll_from_pending by exact Hp. reflexivity.
Qed.

(** ** What the orchestration does to the stores *)

Lemma update_job_data_view job_id u w w' :
  view w = view w' →
  view (snd (update_job_data job_id u w))
  = view (snd (update_job_data job_id u w')).
Proof.
  rewrite !update_job_data_eq.
  destruct w as [s fs fl sc lg q sl], w' as [s' fs' fl' sc' lg' q' sl'].
  unfold view. simpl. intros [= -> -> ->].
  destruct s' as [c db mem].
  unfold found, updated, stored_in, after_get, after_call, next_call_fails,
    redis_lookup, memory_lookup; simpl.
  destruct c, fl' as [|[] [|[] fl']]; simpl; repeat case_match; reflexivity.
Qed.

Lemma run_updates_view job_id us :
  ∀ w w', view w = view w' →
          view (run_updates job_id us w) = view (run_updates job_id us w').
Proof.
  induction us as [|u us IH]; intros w w' Hv; simpl; [exact Hv|].
  apply IH. apply update_job_data_view. exact Hv.
Qed.

Lemma run_updates_snoc job_id us u w :
  run_updates job_id (us ++ [u]) w
  = snd (update_job_data job_id u (run_updates job_id us w)).
Proof. unfold run_updates. rewrite fold_left_app. reflexivity. Qed.

Lemma poll_attempt_view E job_id attempt w :
  view (snd (poll_attempt E job_id attempt w)) = view w.
Proof.
  unfold poll_attempt, try_except, bind, count_query, modify, sleep.
  destruct (tasks_creations E attempt) as [|code [data|]]; simpl;
    try reflexivity.
  - destruct (bool_decide (code ≠ 200)); simpl; try reflexivity.
    destruct (bool_decide (state data = lit "success")); simpl.
    + destruct (creations data) as [|[|[|c u]] l]; simpl; try reflexivity.
      fold (counted w).
      destruct (download_vidu_video_returns E (c :: u) job_id (counted w))
        as [v Hv].
      pose proof (download_vidu_video_frame E (c :: u) job_id (counted w))
        as (Hs & Hf & Hl & _).
      destruct (download_vidu_video E (c :: u) job_id (counted w)) as [r w'].
      simpl in *. subst r. simpl. unfold view. rewrite Hs, Hf, Hl. reflexivity.
    + destruct (bool_decide (state data = lit "failed")); reflexivity.
  - destruct (bool_decide (code ≠ 200)); reflexivity.
Qed.

Lemma poll_from_view E job_id remaining :
  ∀ attempt w, view (snd (poll_from E job_id remaining attempt w)) = view w.
Proof.
  induction remaining as [|n IH]; intros attempt w; simpl; [reflexivity|].
  unfold bind.
  pose proof (poll_attempt_view E job_id attempt w) as Hv.
  destruct (poll_attempt E job_id attempt w) as [[[|v]|e] w1]; simpl in *.
  - rewrite IH. exact Hv.
  - exact Hv.
  - exact Hv.
Qed.

Lemma update_job_data_run job_id u w :
  update_job_data job_id u w = (Ok tt, run_updates job_id [u] w).
Proof.
  unfold run_updates. simpl. rewrite update_job_data_eq. reflexivity.
Qed.

Lemma run_updates_after job_id us u w w' :
  view w' = view (run_updates job_id us w) →
  view (run_updates job_id [u] w') = view (run_updates job_id (us ++ [u]) w).
Proof.
  intros Hv. rewrite run_updates_snoc. simpl.
  apply update_job_data_view. exact Hv.
Qed.

Lemma shutil_copy2_view E src dst w :
  view (snd (shutil_copy2 E src dst w)) = view w.
Proof.
  unfold shutil_copy2, bind, gets, write_file, raise, modify. simpl.
  destruct (files w !! src); [|reflexivity].
  destruct (bool_decide (src = dst)); [reflexivity|].
  destruct (writable E dst); reflexivity.
Qed.

Lemma mock_tier_trace E job_id w :
  (fst (mock_tier E job_id w) = Ok tt
   ∧ ∃ u, completes u
          ∧ view (snd (mock_tier E job_id w))
            = view (run_updates job_id [u] w))
  ∨ ((∃ e, fst (mock_tier E job_id w) = Raise e)
     ∧ view (snd (mock_tier E job_id w)) = view w).
Proof.
  unfold mock_tier, bind, os_path_exists, gets.
  destruct (str_truthy _ && bool_decide _); [|right; split; eauto].
  pose proof (shutil_copy2_view E (lit "./videos" ++ lit "/mock_video.mp4")
                (lit "./videos" ++ lit "/" ++ job_id ++ lit ".mp4") w) as Hv.
  destruct (shutil_copy2 E _ _ w) as [[[]|e] w1]; simpl in *.
  - left. rewrite update_job_data_run. simpl. split; [reflexivity|].
    eexists. split; [do 3 eexists; reflexivity|].
    apply (run_updates_view job_id [_]). exact Hv.
  - right. split; eauto.
Qed.

Lemma use_mock_video_fallback_trace E job_id prompt w :
  fst (use_mock_video_fallback E job_id prompt w) = Ok tt
  ∧ ∃ last, (completes last ∨ last = upd_error)
            ∧ view (snd (use_mock_video_fallback E job_id prompt w))
              = view (run_updates job_id [last] w).
Proof.
  unfold use_mock_video_fallback, try_except.
  destruct (mock_tier_trace E job_id w) as [(Hr & u & Hu & Hv)|((e & Hr) & Hv)];
    destruct (mock_tier E job_id w) as [r w1]; simpl in *; subst r.
  - split; [reflexivity|]. exists u. split; [left; exact Hu | exact Hv].
  - rewrite update_job_data_run. simpl. split; [reflexivity|].
    exists upd_error. split; [right; reflexivity|].
    apply (run_updates_view job_id [_]). exact Hv.
Qed.

Lemma huggingface_tier_trace E job_id prompt w :
  (fst (huggingface_tier E job_id prompt w) = Ok tt
   ∧ ∃ u, completes u
          ∧ view (snd (huggingface_tier E job_id prompt w))
            = view (run_updates job_id [upd_huggingface; u] w))
  ∨ ((∃ e, fst (huggingface_tier E job_id prompt w) = Raise e)
     ∧ (view (snd (huggingface_tier E job_id prompt w)) = view w
        ∨ view (snd (huggingface_tier E job_id prompt w))
          = view (run_updates job_id [upd_huggingface] w))).
Proof.
  unfold huggingface_tier, bind.
  destruct (hf_login_ok E); [|right; split; [eexists; reflexivity|left; reflexivity]].
  simpl. rewrite update_job_data_run.
  set (w1 := run_updates job_id [upd_huggingface] w).
  destruct (predict E) as [result|];
    [|right; split; [eexists; reflexivity|right; reflexivity]].
  simpl. unfold os_makedirs.
  destruct (makedirs_ok E);
    [|right; split; [eexists; reflexivity|right; reflexivity]].
  simpl. unfold os_path_exists, gets.
  destruct (str_truthy _ && bool_decide _);
    [|right; split; [eexists; reflexivity|right; reflexivity]].
  match goal with
  | |- context [shutil_copy2 E ?a ?b w1] =>
      pose proof (shutil_copy2_view E a b w1) as Hv;
      destruct (shutil_copy2 E a b w1) as [[[]|e] w2]
  end; simpl in *.
  - left. rewrite update_job_data_run. simpl. split; [reflexivity|].
    eexists. split; [do 3 eexists; reflexivity|].
    apply (run_updates_after job_id [upd_huggingface]). exact Hv.
  - right. split; [eexists; reflexivity|right; exact Hv].
Qed.

Lemma use_huggingface_fallback_trace E job_id prompt w :
  fst (use_huggingface_fallback E job_id prompt w) = Ok tt
  ∧ ∃ mid last,
      (mid = [] ∨ mid = [upd_huggingface])
      ∧ (completes last ∨ last = upd_error)
      ∧ view (snd (use_huggingface_fallback E job_id prompt w))
        = view (run_updates job_id (mid ++ [last]) w).
Proof.
  unfold use_huggingface_fallback, try_except.
  destruct (huggingface_tier_trace E job_id prompt w)
    as [(Hr & u & Hu & Hv)|((e & Hr) & Hv)];
    destruct (huggingface_tier E job_id prompt w) as [r w1];
    simpl in *; subst r.
  - split; [reflexivity|].
    exists [upd_huggingface], u. auto.
  - destruct (use_mock_video_fallback_trace E job_id prompt w1)
      as (Hok & last & Hlast & Hm).
    split; [exact Hok|].
    destruct Hv as [Hv|Hv].
    + exists [], last. split; [auto|]. split; [exact Hlast|].
      rewrite Hm. apply (run_updates_view job_id [_]). exact Hv.
    + exists [upd_huggingface], last. split; [auto|]. split; [exact Hlast|].
      rewrite Hm. apply (run_updates_after job_id [upd_huggingface]). exact Hv.
Qed.

Lemma vidu_tier_trace E job_id prompt w :
  (fst (vidu_tier E job_id prompt w) = Ok tt
   ∧ ∃ u, completes u
          ∧ view (snd (vidu_tier E job_id prompt w))
            = view (run_updates job_id [upd_connecting; u] w))
  ∨ ((∃ e, fst (vidu_tier E job_id prompt w) = Raise e)
     ∧ view (snd (vidu_tier E job_id prompt w))
       = view (run_updates job_id [upd_connecting] w)).
Proof.
  unfold vidu_tier, bind. rewrite update_job_data_run.
  set (w1 := run_updates job_id [upd_connecting] w).
  destruct (val_truthy (VIDU_API_KEY E)); simpl;
    [|right; split; [eexists; reflexivity|reflexivity]].
  destruct (text2video E) as [|code json]; simpl;
    [right; split; [eexists; reflexivity|reflexivity]|].
  destruct (bool_decide (code = 200)); simpl;
    [|right; split; [eexists; reflexivity|reflexivity]].
  destruct json as [task_id|]; simpl;
    [|right; split; [eexists; reflexivity|reflexivity]].
  destruct (val_truthy task_id); simpl;
    [|right; split; [eexists; reflexivity|reflexivity]].
  unfold poll_vidu_task.
  destruct (poll_from_bounded E job_id 120 0%nat w1) as [[v Hok] _].
  pose proof (poll_from_view E job_id 120 0%nat w1) as Hv.
  destruct (poll_from E job_id 120 0%nat w1) as [r w2]. simpl in *. subst r.
  destruct v as [path|]; simpl;
    [|right; split; [eexists; reflexivity|exact Hv]].
  destruct (str_truthy path); simpl;
    [|right; split; [eexists; reflexivity|exact Hv]].
  left. rewrite update_job_data_run. simpl. split; [reflexivity|].
  eexists. split; [do 3 eexists; reflexivity|].
  apply (run_updates_after job_id [upd_connecting]). exact Hv.
Qed.

(** One run of the orchestration returns normally, and acts on the
    stores as a sequence of two or three updates of the job. *)
Lemma video_generation_process_trace E job_id prompt w :
  fst (video_generation_process E job_id prompt w) = Ok tt
  ∧ ∃ us, orchestration_updates us
          ∧ view (snd (video_generation_process E job_id prompt w))
            = view (run_updates job_id us w).
Proof.
  unfold video_generation_process, try_except.
  destruct (vidu_tier_trace E job_id prompt w)
    as [(Hr & u & Hu & Hv)|((e & Hr) & Hv)];
    destruct (vidu_tier E job_id prompt w) as [r w1];
    simpl in *; subst r.
  - split; [reflexivity|].
    exists [upd_connecting; u]. split; [|exact Hv].
    exists [], u. auto.
  - destruct (use_huggingface_fallback_trace E job_id prompt w1)
      as (Hok & mid & last & Hmid & Hlast & Hh).
    split; [exact Hok|].
    exists (upd_connecting :: mid ++ [last]). split.
    + exists mid, last. auto.
    + rewrite Hh. clear Hh.
      change (upd_connecting :: mid ++ [last])
        with ([upd_connecting] ++ (mid ++ [last])).
      generalize (mid ++ [last]). intros l.
      unfold run_updates at 2. rewrite fold_left_app.
      apply run_updates_view. exact Hv.
Qed.

(** ** No store failure reaches a caller *)


(** ** One update, seen from the stores *)

Lemma job_key_inj a b : job_key a = job_key b → a = b.
Proof. unfold job_key. apply app_inv_head. Qed.

Lemma redis_lookup_put_redis job_id job_id' d s :
  redis_lookup (put_redis job_id d s) job_id'
  = if decide (job_id' = job_id) then Some d else redis_lookup s job_id'.
Proof.
  unfold redis_lookup, put_redis. simpl.
  destruct (decide (job_id' = job_id)) as [->|Hne].
  - rewrite lookup_insert_eq. reflexivity.
  - rewrite lookup_insert_ne; [reflexivity|].
    intros H. apply job_key_inj in H. congruence.
Qed.

Lemma memory_lookup_put_memory job_id job_id' d s :
  memory_lookup (put_memory job_id d s) job_id'
  = if decide (job_id' = job_id) then Some d else memory_lookup s job_id'.
Proof.
  unfold memory_lookup, put_memory. simpl.
  destruct (decide (job_id' = job_id)) as [->|Hne].
  - rewrite lookup_insert_eq. reflexivity.
  - rewrite lookup_insert_ne; [reflexivity|]. congruence.
Qed.

Lemma memory_lookup_put_redis job_id job_id' d s :
  memory_lookup (put_redis job_id d s) job_id' = memory_lookup s job_id'.
Proof. reflexivity. Qed.

Lemma redis_lookup_put_memory job_id job_id' d s :
  redis_lookup (put_memory job_id d s) job_id' = redis_lookup s job_id'.
Proof. reflexivity. Qed.

Lemma found_holds w job_id d o :
  found w job_id = Some (d, o) →
  match o with
  | Fresh => redis_lookup (st w) job_id = Some d
  | Shared => memory_lookup (st w) job_id = Some d
  end.
Proof.
  unfold found.
  destruct (redis_client (st w) && negb (next_call_fails w)).
  - destruct (redis_lookup (st w) job_id) as [d'|].
    + intros [= -> <-]. reflexivity.
    + destruct (memory_lookup (st w) job_id); simpl; intros [= -> <-].
      reflexivity.
  - destruct (memory_lookup (st w) job_id); simpl; intros [= -> <-].
    reflexivity.
Qed.

Lemma put_redis_merged job_id d' s :
  merged_into job_id d' s (put_redis job_id d' s).
Proof.
  unfold merged_into, holds. repeat split.
  - left. rewrite redis_lookup_put_redis.
    destruct (decide (job_id = job_id)); [reflexivity|contradiction].
  - intros r [H|H].
    + rewrite redis_lookup_put_redis in H.
      destruct (decide (job_id = job_id)); [|contradiction].
      left. congruence.
    + right. right. exact H.
  - rewrite redis_lookup_put_redis.
    destruct (decide (job_id' = job_id)); [contradiction|reflexivity].
Qed.

Lemma put_memory_merged job_id d' s :
  merged_into job_id d' s (put_memory job_id d' s).
Proof.
  unfold merged_into, holds. repeat split.
  - right. rewrite memory_lookup_put_memory.
    destruct (decide (job_id = job_id)); [reflexivity|contradiction].
  - intros r [H|H].
    + right. left. exact H.
    + rewrite memory_lookup_put_memory in H.
      destruct (decide (job_id = job_id)); [|contradiction].
      left. congruence.
  - rewrite memory_lookup_put_memory.
    destruct (decide (job_id' = job_id)); [contradiction|reflexivity].
Qed.

Lemma merged_into_trans job_id d' s1 s2 s3 :
  merged_into job_id d' s1 s2 → merged_into job_id d' s2 s3 →
  merged_into job_id d' s1 s3.
Proof.
  intros (_ & H1 & F1 & C1) (H2 & H3 & F2 & C2).
  unfold merged_into. repeat split.
  - exact H2.
  - intros r Hr. destruct (H3 r Hr) as [->|Hr']; [left; reflexivity|].
    apply H1. exact Hr'.
  - rewrite (proj1 (F2 job_id' H)). apply F1. exact H.
  - rewrite (proj2 (F2 job_id' H)). apply F1. exact H.
  - congruence.
Qed.

Lemma update_job_data_step job_id u w :
  match visible w job_id with
  | Some d =>
      if dict_truthy d then
        update_log (snd (update_job_data job_id u w))
        = update_log w ++ [UpdateEvent (st w) job_id u (dict_update d u)]
        ∧ holds (st w) job_id d
        ∧ merged_into job_id (dict_update d u) (st w)
                      (st (snd (update_job_data job_id u w)))
      else st (snd (update_job_data job_id u w)) = st w
           ∧ update_log (snd (update_job_data job_id u w)) = update_log w
  | None => st (snd (update_job_data job_id u w)) = st w
            ∧ update_log (snd (update_job_data job_id u w)) = update_log w
  end.
Proof.
  rewrite update_job_data_eq, visible_found. simpl.
  assert (Hag : st (after_get w) = st w ∧ update_log (after_get w) = update_log w).
  { unfold after_get. destruct (redis_client (st w)); split; reflexivity. }
  destruct (found w job_id) as [[d o]|] eqn:Hf; simpl; [|exact Hag].
  destruct (dict_truthy d); [|exact Hag].
  apply found_holds in Hf.
  split; [reflexivity|].
  unfold updated, stored_in. simpl. rewrite st_after_get.
  destruct o.
  - split; [left; exact Hf|].
    destruct (redis_client (st w) && negb (next_call_fails (after_get w)));
      [apply put_redis_merged | apply put_memory_merged].
  - split; [right; exact Hf|].
    apply (merged_into_trans _ _ _ (put_memory job_id (dict_update d u) (st w)));
      [apply put_memory_merged|].
    destruct (redis_client (st w) && negb (next_call_fails (after_get w)));
      [apply put_redis_merged | apply put_memory_merged].
Qed.

(** ** The status never regresses *)

Lemma processing_not_terminal r : processing r → ¬ terminal r.
Proof.
  unfold processing, terminal, status_is. intros Hp [Ht|Ht];
    rewrite Hp in Ht; vm_compute in Ht; discriminate Ht.
Qed.

Lemma dict_update_lookup (d u : record) k :
  dict_update d u !! k = match u !! k with
                         | Some v => Some v
                         | None => d !! k
                         end.
Proof.
  unfold dict_update. rewrite lookup_union.
  destruct (u !! k), (d !! k); reflexivity.
Qed.

Lemma upd_connecting_keeps_open : keeps_open upd_connecting.
Proof. right. vm_compute. reflexivity. Qed.

Lemma upd_huggingface_keeps_open : keeps_open upd_huggingface.
Proof. left. vm_compute. reflexivity. Qed.

Lemma last_update_closes last : completes last ∨ last = upd_error → closes last.
Proof.
  intros [(m & url & path & ->)| ->]; [left|right]; vm_compute; reflexivity.
Qed.

Lemma keeps_open_merge d u :
  keeps_open u → ¬ terminal d → ¬ terminal (dict_update d u).
Proof.
  unfold terminal, status_is. rewrite dict_update_lookup.
  intros [->| ->] Hd; [exact Hd|].
  intros [H|H]; vm_compute in H; discriminate H.
Qed.

Lemma closes_merge d u : closes u → terminal (dict_update d u).
Proof.
  unfold closes, terminal, status_is. rewrite dict_update_lookup.
  intros [->| ->]; auto.
Qed.

Lemma update_keeps_open job_id u w :
  keeps_open u →
  no_terminal (st w) job_id →
  no_terminal (st (snd (update_job_data job_id u w))) job_id
  ∧ ∃ evs,
      update_log (snd (update_job_data job_id u w)) = update_log w ++ evs
      ∧ Forall (λ e, no_terminal (ev_before e) job_id
                     ∧ ¬ terminal (ev_written e)) evs.
Proof.
  intros Hu Hn. pose proof (update_job_data_step job_id u w) as Hstep.
  destruct (visible w job_id) as [d|];
    [destruct (dict_truthy d)|].
  - destruct Hstep as (Hlog & Hd & Hheld & Hback & _).
    assert (Hopen : ¬ terminal (dict_update d u))
      by (apply keeps_open_merge; [exact Hu | exact (Hn d Hd)]).
    split.
    + intros r Hr. destruct (Hback r Hr) as [->|Hr']; [exact Hopen|].
      exact (Hn r Hr').
    + eexists. split; [exact Hlog|]. repeat constructor; assumption.
  - destruct Hstep as [Hs Hlog]. rewrite Hs. split; [exact Hn|].
    exists []. rewrite app_nil_r. split; [exact Hlog|constructor].
  - destruct Hstep as [Hs Hlog]. rewrite Hs. split; [exact Hn|].
    exists []. rewrite app_nil_r. split; [exact Hlog|constructor].
Qed.

Lemma update_closes job_id u w :
  closes u →
  ∃ evs,
    update_log (snd (update_job_data job_id u w)) = update_log w ++ evs
    ∧ (List.length evs ≤ 1)%nat
    ∧ Forall (λ e, terminal (ev_written e)) evs.
Proof.
  intros Hu. pose proof (update_job_data_step job_id u w) as Hstep.
  destruct (visible w job_id) as [d|];
    [destruct (dict_truthy d)|].
  - destruct Hstep as (Hlog & _).
    eexists. split; [exact Hlog|]. split; [simpl; lia|].
    constructor; [|constructor]. simpl. apply closes_merge. exact Hu.
  - destruct Hstep as [_ Hlog].
    exists []. rewrite app_nil_r. split; [exact Hlog|].
    split; [simpl; lia|constructor].
  - destruct Hstep as [_ Hlog].
    exists []. rewrite app_nil_r. split; [exact Hlog|].
    split; [simpl; lia|constructor].
Qed.

Lemma run_keeps_open job_id us :
  ∀ w, Forall keeps_open us →
       no_terminal (st w) job_id →
       no_terminal (st (run_updates job_id us w)) job_id
       ∧ ∃ evs,
           update_log (run_updates job_id us w) = update_log w ++ evs
           ∧ Forall (λ e, no_terminal (ev_before e) job_id
                          ∧ ¬ terminal (ev_written e)) evs.
Proof.
  induction us as [|u us IH]; intros w Hus Hn.
  - split; [exact Hn|]. exists []. rewrite app_nil_r.
    split; [reflexivity|constructor].
  - change (run_updates job_id (u :: us) w)
      with (run_updates job_id us (snd (update_job_data job_id u w))).
    apply Forall_cons in Hus as [Hu Hus].
    destruct (update_keeps_open job_id u w Hu Hn) as (Hn1 & evs1 & Hl1 & HF1).
    destruct (IH _ Hus Hn1) as (Hn2 & evs2 & Hl2 & HF2).
    split; [exact Hn2|].
    exists (evs1 ++ evs2). split.
    + rewrite Hl2, Hl1, app_assoc. reflexivity.
    + apply Forall_app. split; assumption.
Qed.

(** The shape of the log of one run that starts with no terminal record
    in the stores. *)
Lemma orchestration_log E job_id prompt w :
  no_terminal (st w) job_id →
  ∃ pre fin,
    update_log (snd (video_generation_process E job_id prompt w))
    = update_log w ++ pre ++ fin
    ∧ Forall (λ e, no_terminal (ev_before e) job_id
                   ∧ ¬ terminal (ev_written e)) pre
    ∧ Forall (λ e, terminal (ev_written e)) fin
    ∧ (List.length fin ≤ 1)%nat.
Proof.
  intros Hn.
  destruct (video_generation_process_trace E job_id prompt w)
    as (_ & us & (mid & last & -> & Hmid & Hlast) & Hv).
  assert (Hlog : update_log (snd (video_generation_process E job_id prompt w))
                 = update_log (run_updates job_id
                                 (upd_connecting :: mid ++ [last]) w))
    by (unfold view in Hv; congruence).
  rewrite Hlog.
  change (upd_connecting :: mid ++ [last])
    with ((upd_connecting :: mid) ++ [last]).
  rewrite run_updates_snoc.
  assert (Hopen : Forall keeps_open (upd_connecting :: mid)).
  { constructor; [exact upd_connecting_keeps_open|].
    destruct Hmid as [-> | ->]; [constructor|].
    constructor; [exact upd_huggingface_keeps_open | constructor]. }
  destruct (run_keeps_open job_id _ w Hopen Hn) as (_ & pre & Hpre & HFpre).
  destruct (update_closes job_id last
              (run_updates job_id (upd_connecting :: mid) w)
              (last_update_closes last Hlast)) as (fin & Hfin & Hlen & HFfin).
  exists pre, fin. rewrite Hfin, Hpre, app_assoc. auto.
Qed.

Lemma split_before_last {A} (pre fin before after : list A) (t : A) :
  pre ++ fin = before ++ t :: after →
  (List.length fin ≤ 1)%nat →
  t ∈ pre ∨ after = [].
Proof.
  intros Heq Hlen.
  destruct (decide (List.length before < List.length pre)%nat) as [Hlt|Hge].
  - left. apply (list_elem_of_lookup_2 _ (List.length before)).
    rewrite <- (lookup_app_l pre fin) by exact Hlt.
    rewrite Heq. apply list_lookup_middle. reflexivity.
  - right. apply nil_length_inv.
    apply (f_equal (@List.length A)) in Heq.
    rewrite !length_app in Heq. simpl in Heq. lia.
Qed.

(** C1: run the orchestration on a job for which no store holds a
    terminal record (as after its creation).  Then, in the sequence of
    records the run writes, no record written after one with a terminal
    status ([completed] or [error]) has status [processing]; and whenever
    the run writes a record with status [processing], neither store holds
    a terminal record of the job at that moment. *)
Theorem status_never_regresses (E : env) (job_id prompt : pystr) (w : world) :
  no_terminal (st w) job_id →
  ∃ new,
    update_log (snd (video_generation_process E job_id prompt w))
    = update_log w ++ new
    ∧ (∀ before t after,
         new = before ++ t :: after →
         terminal (ev_written t) →
         Forall (λ e, ¬ processing (ev_written e)) after)
    ∧ (∀ e, e ∈ new →
            processing (ev_written e) →
            no_terminal (ev_before e) job_id).
Proof.
  intros Hn.
  destruct (orchestration_log E job_id prompt w Hn)
    as (pre & fin & Hlog & Hpre & Hfin & Hlen).
  exists (pre ++ fin). split; [exact Hlog|]. split.
  - intros before t after Heq Ht.
    destruct (split_before_last pre fin before after t Heq Hlen) as [Hin| ->].
    + rewrite Forall_forall in Hpre. destruct (Hpre t Hin) as [_ Hnt].
      contradiction.
    + constructor.
  - intros e Hin Hp. apply elem_of_app in Hin as [Hin|Hin].
    + rewrite Forall_forall in Hpre. exact (proj1 (Hpre e Hin)).
    + rewrite Forall_forall in Hfin.
      exfalso. exact (processing_not_terminal _ Hp (Hfin e Hin)).
Qed.

Lemma created_no_terminal uuid4 prompt w :
  redis_lookup (st w) uuid4 = None →
  memory_lookup (st w) uuid4 = None →
  no_terminal (st (snd (generate_video uuid4 prompt w))) uuid4.
Proof.
  intros Hr Hm. unfold generate_video.
  destruct (negb (str_truthy (strip prompt))).
  - simpl. intros r [H|H]; congruence.
  - unfold bind. rewrite store_job_data_eq.
    assert (Hinit : ¬ terminal (initial_job_data prompt)).
    { apply processing_not_terminal. vm_compute. reflexivity. }
    intros r Hr'.
    assert (Hcase : r = initial_job_data prompt).
    { destruct (redis_client (st w)); [destruct (next_call_fails w)|];
        simpl in Hr'; destruct Hr' as [H|H];
        rewrite ?redis_lookup_put_redis, ?memory_lookup_put_memory,
          ?redis_lookup_put_memory, ?memory_lookup_put_redis in H;
        try congruence;
        destruct (decide (uuid4 = uuid4)); congruence. }
    subst r. exact Hinit.
Qed.

Lemma status_never_regresses_witness :
  ∃ new,
    update_log (snd (video_generation_process Sample.offline Sample.job
                       Sample.prompt (Sample.created true [])))
    = update_log (Sample.created true []) ++ new
    ∧ (∀ before t after,
         new = before ++ t :: after →
         terminal (ev_written t) →
         Forall (λ e, ¬ processing (ev_written e)) after)
    ∧ (∀ e, e ∈ new →
            processing (ev_written e) →
            no_terminal (ev_before e) Sample.job).
Proof.
  apply (status_never_regresses Sample.offline Sample.job Sample.prompt
           (Sample.created true [])).
  apply created_no_terminal; reflexivity.
Defined.

(** ** The prompt is immutable *)

Lemma update_keeps_prompt job_id u p w :
  u !! "prompt" = None →
  prompt_is p (st w) job_id →
  prompt_is p (st (snd (update_job_data job_id u w))) job_id.
Proof.
  intros Hu Hp. pose proof (update_job_data_step job_id u w) as Hstep.
  destruct (visible w job_id) as [d|];
    [destruct (dict_truthy d)|].
  - destruct Hstep as (_ & Hd & _ & Hback & _).
    intros r Hr. destruct (Hback r Hr) as [->|Hr']; [|exact (Hp r Hr')].
    rewrite dict_update_lookup, Hu. exact (Hp d Hd).
  - destruct Hstep as [-> _]. exact Hp.
  - destruct Hstep as [-> _]. exact Hp.
Qed.

Lemma run_keeps_prompt job_id p us :
  ∀ w, Forall (λ u : record, u !! "prompt" = None) us →
       prompt_is p (st w) job_id →
       prompt_is p (st (run_updates job_id us w)) job_id.
Proof.
  induction us as [|u us IH]; intros w Hus Hp; [exact Hp|].
  change (run_updates job_id (u :: us) w)
    with (run_updates job_id us (snd (update_job_data job_id u w))).
  apply Forall_cons in Hus as [Hu Hus].
  apply IH; [exact Hus|]. apply update_keeps_prompt; assumption.
Qed.

Lemma orchestration_updates_no_prompt us :
  orchestration_updates us → Forall (λ u : record, u !! "prompt" = None) us.
Proof.
  intros (mid & last & -> & Hmid & Hlast).
  constructor; [vm_compute; reflexivity|].
  apply Forall_app. split.
  - destruct Hmid as [-> | ->]; repeat constructor.
  - constructor; [|constructor].
    destruct Hlast as [(m & url & path & ->)| ->]; vm_compute; reflexivity.
Qed.

(** C9: through a whole run of the orchestration every record a store
    holds for the job keeps the prompt it had; for [update_job_data]
    (merge) in general: when [get_job_data] finds no record the stores
    are left as they are, and when it finds the record [d] the record
    stored is [d] with exactly the fields of the partial update set, all
    other fields as in [d], and the records of other jobs untouched. *)
Theorem prompt_is_immutable (E : env) (job_id prompt p : pystr) (w : world) :
  prompt_is p (st w) job_id →
  prompt_is p (st (snd (video_generation_process E job_id prompt w))) job_id
  ∧ (∀ u w0,
       (fst (get_job_data job_id w0) = Ok None →
        st (snd (update_job_data job_id u w0)) = st w0)
       ∧ (∀ d, fst (get_job_data job_id w0) = Ok (Some d) →
               d ≠ ∅ →
               holds (st (snd (update_job_data job_id u w0))) job_id
                     (dict_update d u)
               ∧ (∀ k v, u !! k = Some v → dict_update d u !! k = Some v)
               ∧ (∀ k, u !! k = None → dict_update d u !! k = d !! k)
               ∧ (∀ job_id', job_id' ≠ job_id →
                    redis_lookup (st (snd (update_job_data job_id u w0))) job_id'
                    = redis_lookup (st w0) job_id'
                    ∧ memory_lookup (st (snd (update_job_data job_id u w0))) job_id'
                      = memory_lookup (st w0) job_id'))).
Proof.
  intros Hp. split.
  - destruct (video_generation_process_trace E job_id prompt w)
      as (_ & us & Hus & Hv).
    assert (Hst : st (snd (video_generation_process E job_id prompt w))
                  = st (run_updates job_id us w))
      by (unfold view in Hv; congruence).
    rewrite Hst. apply run_keeps_prompt; [|exact Hp].
    apply orchestration_updates_no_prompt. exact Hus.
  - intros u w0. rewrite get_job_data_eq. simpl.
    pose proof (update_job_data_step job_id u w0) as Hstep.
    split.
    + intros [= Hv]. rewrite Hv in Hstep. exact (proj1 Hstep).
    + intros d [= Hv] Hne. rewrite Hv in Hstep.
      assert (Ht : dict_truthy d = true)
        by (apply bool_decide_eq_true; exact Hne).
      rewrite Ht in Hstep.
      destruct Hstep as (_ & _ & Hheld & _ & Hframe & _).
      split; [exact Hheld|].
      split; [intros k v Hk; rewrite dict_update_lookup, Hk; reflexivity|].
      split; [intros k Hk; rewrite dict_update_lookup, Hk; reflexivity|].
      exact Hframe.
Qed.

Lemma created_prompt_is uuid4 prompt w :
  ¬ blank prompt →
  redis_lookup (st w) uuid4 = None →
  memory_lookup (st w) uuid4 = None →
  prompt_is prompt (st (snd (generate_video uuid4 prompt w))) uuid4.
Proof.
  intros Hb Hr Hm. unfold generate_video.
  destruct (str_truthy (strip prompt)) eqn:Hs;
    [|apply str_truthy_strip in Hs; contradiction].
  simpl. unfold bind. rewrite store_job_data_eq.
  intros r Hr'.
  assert (Hcase : r = initial_job_data prompt).
  { destruct (redis_client (st w)); [destruct (next_call_fails w)|];
      simpl in Hr'; destruct Hr' as [H|H];
      rewrite ?redis_lookup_put_redis, ?memory_lookup_put_memory,
        ?redis_lookup_put_memory, ?memory_lookup_put_redis in H;
      try congruence;
      destruct (decide (uuid4 = uuid4)); congruence. }
  subst r. unfold initial_job_data.
  rewrite !lookup_insert_ne by discriminate.
  apply lookup_insert_eq.
Qed.

Lemma prompt_is_immutable_witness :
  ∃ r,
    memory_lookup
      (st (snd (video_generation_process Sample.offline Sample.job
                  Sample.prompt (Sample.created false []))))
      Sample.job = Some r
    ∧ r !! "status" = Some (PyStr (lit "error"))
    ∧ r !! "prompt" = Some (PyStr Sample.prompt).
Proof.
  assert (Hheld :
    memory_lookup
      (st (snd (video_generation_process Sample.offline Sample.job
                  Sample.prompt (Sample.created false []))))
      Sample.job
    = Some (dict_update
              (dict_update
                 (dict_update (initial_job_data Sample.prompt) upd_connecting)
                 upd_huggingface)
              upd_error))
    by (vm_compute; reflexivity).
  eexists. split; [exact Hheld|]. split; [vm_compute; reflexivity|].
  refine (proj1 (prompt_is_immutable Sample.offline Sample.job Sample.prompt
                   Sample.prompt (Sample.created false []) _) _ _).
  - apply created_prompt_is; [exact sample_prompt_not_blank| |]; reflexivity.
  - right. exact Hheld.
Defined.

(** ** All three tiers fail *)

Lemma reliable_next w :
  redis_reliable w → redis_client (st w) = true → next_call_fails w = false.
Proof.
  intros Hr Hc. specialize (Hr Hc). unfold next_call_fails.
  destruct (redis_faults w) as [|[] l]; [reflexivity| |reflexivity].
  apply Forall_inv in Hr. discriminate Hr.
Qed.

Lemma reliable_after_get w : redis_reliable w → redis_reliable (after_get w).
Proof.
  unfold redis_reliable, after_get. intros Hr.
  destruct (redis_client (st w)) eqn:Hc; [|rewrite Hc; exact Hr].
  simpl. intros _. specialize (Hr eq_refl).
  destruct (redis_faults w); [constructor|].
  apply Forall_cons in Hr as [_ Hr]. exact Hr.
Qed.

Lemma dict_update_nonempty (d u : record) : d ≠ ∅ → dict_update d u ≠ ∅.
Proof.
  intros Hd Hu. apply Hd. apply map_empty. intros k.
  apply (f_equal (λ m : record, m !! k)) in Hu.
  rewrite dict_update_lookup, lookup_empty in Hu.
  destruct (u !! k); [discriminate Hu | exact Hu].
Qed.

Lemma tracked_view job_id w w' : view w = view w' → tracked job_id w → tracked job_id w'.
Proof.
  destruct w as [s fs fl sc lg q sl], w' as [s' fs' fl' sc' lg' q' sl'].
  unfold view. simpl. intros [= -> -> ->] H. exact H.
Qed.

(** With a reliable Redis, an update of a tracked job is read back. *)
Lemma update_tracked job_id u w d :
  redis_reliable w →
  visible w job_id = Some d → d ≠ ∅ →
  redis_reliable (snd (update_job_data job_id u w))
  ∧ visible (snd (update_job_data job_id u w)) job_id
    = Some (dict_update d u).
Proof.
  intros Hr Hv Hd. rewrite update_job_data_eq. simpl.
  rewrite visible_found in Hv.
  destruct (found w job_id) as [[d0 o]|] eqn:Hf; [|discriminate Hv].
  simpl in Hv. injection Hv as ->.
  rewrite (bool_decide_eq_true_2 _ Hd : dict_truthy d = true).
  pose proof (reliable_after_get _ Hr) as Hr1.
  pose proof (reliable_after_get _ Hr1) as Hr2.
  split.
  - unfold redis_reliable, updated, stored_in in *. simpl.
    rewrite !st_after_get in *.
    destruct o, (redis_client (st w) && negb (next_call_fails (after_get w)));
      simpl; exact Hr2.
  - unfold visible, updated, stored_in. simpl. rewrite st_after_get.
    destruct (redis_client (st w)) eqn:Hc.
    + rewrite (reliable_next (after_get w) Hr1)
        by (rewrite st_after_get; exact Hc).
      simpl.
      assert (Hn2 : next_call_fails
                      (World (put_redis job_id (dict_update d u)
                                (match o with
                                 | Fresh => st w
                                 | Shared => put_memory job_id (dict_update d u) (st w)
                                 end))
                             (files w) (redis_faults (after_get (after_get w)))
                             (scheduled w)
                             (update_log w ++
                                [UpdateEvent (st w) job_id u (dict_update d u)])
                             (queries w) (slept w)) = false).
      { pose proof (reliable_next (after_get (after_get w)) Hr2) as Hn.
        rewrite !st_after_get in Hn. exact (Hn Hc). }
      destruct o; simpl; rewrite Hc; simpl; rewrite Hn2; simpl;
        rewrite redis_lookup_put_redis;
        destruct (decide (job_id = job_id)); try contradiction; reflexivity.
    + simpl. destruct o; simpl; rewrite Hc; simpl;
        rewrite !memory_lookup_put_memory;
        destruct (decide (job_id = job_id)); try contradiction; reflexivity.
Qed.

Lemma update_keeps_tracked job_id u w :
  tracked job_id w → tracked job_id (snd (update_job_data job_id u w)).
Proof.
  intros (Hr & d & Hv & Hd).
  destruct (update_tracked job_id u w d Hr Hv Hd) as [Hr' Hv'].
  split; [exact Hr'|]. exists (dict_update d u).
  split; [exact Hv' | apply dict_update_nonempty; exact Hd].
Qed.




(** ** The model on concrete runs *)

Example strip_example : strip (lit "  a b  ") = lit "a b".
Proof. vm_compute. reflexivity. Qed.

Example tier2_completes :
  (status_status <$> result_value (fst (get_status Sample.job Tier2Sample.finish)))
  = Some (PyStr (lit "completed"))
  ∧ (file_body <$> result_value (fst (download_video Sample.job Tier2Sample.finish)))
    = Some [0; 1]%N.
Proof. split; vm_compute; reflexivity. Qed.

Example tier1_completes :
  (status_status <$> result_value (fst (get_status Sample.job Tier1Sample.finish)))
  = Some (PyStr (lit "completed"))
  ∧ (status_video_url <$>
       result_value (fst (get_status Sample.job Tier1Sample.finish)))
    = Some (PyStr (PUBLIC_BASE_URL ++ lit "/api/download/" ++ Sample.job))
  ∧ (file_body <$> result_value (fst (download_video Sample.job Tier1Sample.finish)))
    = Some [7; 8; 9]%N
  ∧ queries Tier1Sample.finish = 3%nat
  ∧ slept Tier1Sample.finish = 10.
Proof. repeat split; vm_compute; reflexivity. Qed.

Example offline_run_statuses :
  List.map (λ e, ev_written e !! "status")
    (update_log (snd (video_generation_process Sample.offline Sample.job
                        Sample.prompt (Sample.created true []))))
  = [Some (PyStr (lit "processing")); Some (PyStr (lit "processing"));
     Some (PyStr (lit "error"))].
Proof. vm_compute. reflexivity. Qed.

Example unknown_job_not_found :
  fst (get_status Sample.job (Sample.empty_world true []))
  = Raise NotFoundError.
Proof. vm_compute. reflexivity. Qed.


(** * Further properties of the code *)

(** ** The job store *)

Lemma run_keeps_tracked job_id us :
  ∀ w, tracked job_id w → tracked job_id (run_updates job_id us w).
Proof.
  induction us as [|u us IH]; intros w Ht; [exact Ht|].
  change (run_updates job_id (u :: us) w)
    with (run_updates job_id us (snd (update_job_data job_id u w))).
  apply IH. apply update_keeps_tracked. exact Ht.
Qed.

Lemma visible_view job_id w w' :
  view w = view w' → visible w job_id = visible w' job_id.
Proof.
  destruct w as [s fs fl sc lg q sl], w' as [s' fs' fl' sc' lg' q' sl'].
  unfold view. simpl. intros [= -> -> ->]. reflexivity.
Qed.

Lemma visible_reliable w job_id :
  redis_reliable w →
  visible w job_id
  = if redis_client (st w)
    then match redis_lookup (st w) job_id with
         | Some d => Some d
         | None => memory_lookup (st w) job_id
         end
    else memory_lookup (st w) job_id.
Proof.
  intros Hr. unfold visible.
  destruct (redis_client (st w)) eqn:Hc; [|reflexivity].
  rewrite (reliable_next w Hr Hc). reflexivity.
Qed.

Lemma store_job_data_reliable job_id data w :
  redis_reliable w →
  redis_reliable (snd (store_job_data job_id data w))
  ∧ visible (snd (store_job_data job_id data w)) job_id = Some data.
Proof.
  intros Hr.
  assert (Hr1 : redis_reliable (snd (store_job_data job_id data w))).
  { rewrite store_job_data_eq.
    pose proof (reliable_after_get w Hr) as H. unfold after_get in H.
    destruct (redis_client (st w)) eqn:Hc.
    - destruct (next_call_fails w); simpl; intros _; exact (H Hc).
    - simpl. intros Hc'. simpl in Hc'. congruence. }
  split; [exact Hr1|].
  rewrite (visible_reliable _ job_id Hr1). rewrite store_job_data_eq.
  destruct (redis_client (st w)) eqn:Hc.
  - rewrite (reliable_next w Hr Hc). simpl. rewrite Hc.
    rewrite redis_lookup_put_redis.
    destruct (decide (job_id = job_id)); [reflexivity|contradiction].
  - simpl. rewrite Hc. rewrite memory_lookup_put_memory.
    destruct (decide (job_id = job_id)); [reflexivity|contradiction].
Qed.

(** X1: while no call to Redis fails (or Redis is not selected), a record
    put under a job id is what the next get under that id answers. *)
Theorem put_then_get (job_id : pystr) (data : record) (w : world) :
  redis_reliable w →
  fst (get_job_data job_id (snd (store_job_data job_id data w)))
  = Ok (Some data).
Proof.
  intros Hr. rewrite get_job_data_eq. simpl.
  rewrite (proj2 (store_job_data_reliable job_id data w Hr)). reflexivity.
Qed.

Lemma put_then_get_witness :
  fst (get_job_data Sample.job
         (snd (store_job_data Sample.job (initial_job_data Sample.prompt)
                 (Sample.empty_world true [false; false]))))
  = Ok (Some (initial_job_data Sample.prompt)).
Proof.
  apply (put_then_get Sample.job (initial_job_data Sample.prompt)
           (Sample.empty_world true [false; false])).
  intros _. repeat constructor.
Defined.

Lemma get_status_state job_id w : snd (get_status job_id w) = after_get w.
Proof.
  unfold get_status, bind. rewrite get_job_data_eq.
  destruct (job_data_falsy (visible w job_id)); [reflexivity|].
  unfold dict_item, ret, raise.
  destruct (default ∅ (visible w job_id) !! "status"); [|reflexivity].
  destruct (default ∅ (visible w job_id) !! "message"); reflexivity.
Qed.

Lemma download_video_state job_id w : snd (download_video job_id w) = after_get w.
Proof.
  unfold download_video, bind. rewrite get_job_data_eq.
  destruct (job_data_falsy (visible w job_id)); [reflexivity|].
  unfold dict_item, ret, raise.
  destruct (default ∅ (visible w job_id) !! "status") as [s|]; [|reflexivity].
  destruct (bool_decide (s ≠ PyStr (lit "completed"))); [reflexivity|].
  destruct (dict_get (default ∅ (visible w job_id)) "video_path") as [|p];
    simpl; [reflexivity|].
  destruct (str_truthy p); simpl; [|reflexivity].
  unfold os_path_exists, gets. simpl.
  destruct (bool_decide (is_Some (files (after_get w) !! p))); reflexivity.
Qed.

Lemma files_after_get w : files (after_get w) = files w.
Proof. unfold after_get. destruct (redis_client (st w)); reflexivity. Qed.

Lemma visible_after_get job_id w :
  redis_reliable w → visible (after_get w) job_id = visible w job_id.
Proof.
  intros Hr.
  rewrite (visible_reliable _ job_id (reliable_after_get w Hr)).
  rewrite (visible_reliable _ job_id Hr), st_after_get. reflexivity.
Qed.

(** X2: [get_status] and [download_video] only read: whatever they
    answer, both stores and the disk are as before; and while no call to
    Redis fails, asking again gives the same answer. *)
Theorem reads_never_write (job_id : pystr) (w : world) :
  st (snd (get_status job_id w)) = st w
  ∧ files (snd (get_status job_id w)) = files w
  ∧ st (snd (download_video job_id w)) = st w
  ∧ files (snd (download_video job_id w)) = files w
  ∧ (redis_reliable w →
     fst (get_status job_id (snd (get_status job_id w)))
     = fst (get_status job_id w)
     ∧ fst (download_video job_id (snd (download_video job_id w)))
       = fst (download_video job_id w)).
Proof.
  rewrite get_status_state, download_video_state, st_after_get, files_after_get.
  repeat split.
  - rewrite !get_status_eq, (visible_after_get job_id w H). reflexivity.
  - rewrite !download_video_eq, (visible_after_get job_id w H), files_after_get.
    reflexivity.
Qed.

(** X3: for a job id neither store knows, under every schedule of Redis
    faults, [get_status] and [download_video] fail with "Job ID not found"
    and [update_job_data] changes neither store nor the log. *)
Theorem unknown_job_is_not_found (job_id : pystr) (updates : record)
    (w : world) :
  redis_lookup (st w) job_id = None →
  memory_lookup (st w) job_id = None →
  fst (get_status job_id w) = Raise NotFoundError
  ∧ fst (download_video job_id w) = Raise NotFoundError
  ∧ st (snd (update_job_data job_id updates w)) = st w
  ∧ update_log (snd (update_job_data job_id updates w)) = update_log w.
Proof.
  intros Hr Hm.
  assert (Hv : visible w job_id = None).
  { unfold visible. rewrite Hr, Hm.
    destruct (redis_client (st w) && negb (next_call_fails w)); reflexivity. }
  rewrite get_status_eq, download_video_eq, Hv.
  pose proof (update_job_data_step job_id updates w) as Hstep.
  rewrite Hv in Hstep. tauto.
Qed.

Lemma unknown_job_is_not_found_witness :
  fst (get_status Sample.job (Sample.empty_world true [true]))
  = Raise NotFoundError.
Proof.
  refine (proj1 (unknown_job_is_not_found Sample.job ∅
                   (Sample.empty_world true [true]) _ _)); reflexivity.
Defined.

(** X4: while no call to Redis fails, two updates of a job one after the
    other leave the record that one update with the two dicts merged (the
    later one winning) leaves: the found record with the fields of the
    first update set and then those of the second. *)
Theorem updates_compose (job_id : pystr) (u1 u2 d : record) (w : world) :
  redis_reliable w →
  fst (get_job_data job_id w) = Ok (Some d) →
  d ≠ ∅ →
  fst (get_job_data job_id
         (snd (update_job_data job_id u2
                 (snd (update_job_data job_id u1 w)))))
  = Ok (Some (dict_update (dict_update d u1) u2))
  ∧ fst (get_job_data job_id
           (snd (update_job_data job_id (dict_update u1 u2) w)))
    = Ok (Some (dict_update (dict_update d u1) u2)).
Proof.
  intros Hr Hd Hne. rewrite get_job_data_eq in Hd. simpl in Hd.
  injection Hd as Hd. rewrite !get_job_data_eq. simpl.
  destruct (update_tracked job_id u1 w d Hr Hd Hne) as [Hr1 Hv1].
  destruct (update_tracked job_id u2 _ _ Hr1 Hv1
              (dict_update_nonempty d u1 Hne)) as [_ Hv2].
  destruct (update_tracked job_id (dict_update u1 u2) w d Hr Hd Hne)
    as [_ Hv3].
  rewrite Hv2, Hv3. split; [reflexivity|].
  unfold dict_update. rewrite (assoc_L (∪)). reflexivity.
Qed.

Lemma updates_compose_witness :
  fst (get_job_data Sample.job
         (snd (update_job_data Sample.job upd_error
                 (snd (update_job_data Sample.job upd_huggingface
                         (Sample.created true [])))))) 
  = Ok (Some (dict_update
                (dict_update (initial_job_data Sample.prompt) upd_huggingface)
                upd_error)).
Proof.
  refine (proj1 (updates_compose Sample.job upd_huggingface upd_error
                   (initial_job_data Sample.prompt)
                   (Sample.created true []) _ _ _)).
  - intros _. vm_compute. constructor.
  - vm_compute. reflexivity.
  - intros H. apply (f_equal (λ m : record, m !! "status")) in H.
    vm_compute in H. discriminate H.
Defined.

(** ** The tiers and the disk *)

Lemma video_file_alt job_id :
  lit "./videos" ++ lit "/" ++ job_id ++ lit ".mp4" = video_file job_id.
Proof. vm_compute. reflexivity. Qed.

Lemma placeholder_file_alt :
  lit "./videos" ++ lit "/mock_video.mp4" = placeholder_file.
Proof. vm_compute. reflexivity. Qed.

Lemma video_file_truthy job_id : str_truthy (video_file job_id) = true.
Proof. vm_compute. reflexivity. Qed.

Lemma update_job_data_files job_id u w :
  files (snd (update_job_data job_id u w)) = files w.
Proof.
  rewrite update_job_data_eq. simpl.
  destruct (found w job_id) as [[d o]|]; [|apply files_after_get].
  destruct (dict_truthy d); [reflexivity|apply files_after_get].
Qed.

Lemma run_updates_files job_id us :
  ∀ w, files (run_updates job_id us w) = files w.
Proof.
  induction us as [|u us IH]; intros w; [reflexivity|].
  change (run_updates job_id (u :: us) w)
    with (run_updates job_id us (snd (update_job_data job_id u w))).
  rewrite IH. apply update_job_data_files.
Qed.

(** What [shutil.copy2] does, case by case. *)
Lemma shutil_copy2_cases E src dst w :
  (∃ body, files w !! src = Some body ∧ src ≠ dst ∧ writable E dst = true
           ∧ shutil_copy2 E src dst w
             = (Ok tt, with_files w (<[dst := body]> (files w))))
  ∨ ((files w !! src = None ∨ src = dst ∨ writable E dst = false)
     ∧ ∃ e, shutil_copy2 E src dst w = (Raise e, w)).
Proof.
  unfold shutil_copy2, bind, gets, write_file, raise, modify.
  destruct (files w !! src) as [body|] eqn:Hsrc; simpl.
  - destruct (decide (src = dst)) as [Heq|Hne].
    + right. rewrite bool_decide_eq_true_2 by exact Heq.
      split; [auto|]. eexists; reflexivity.
    + rewrite bool_decide_eq_false_2 by exact Hne.
      destruct (writable E dst) eqn:Hw.
      * left. exists body. auto.
      * right. split; [auto|]. eexists; reflexivity.
  - right. split; [auto|]. eexists; reflexivity.
Qed.

(** What [download_vidu_video] does, case by case. *)
Lemma download_vidu_video_cases E url job_id w :
  (∃ content, content_of E url = Some content
              ∧ makedirs_ok E = true
              ∧ writable E (video_file job_id) = true
              ∧ download_vidu_video E url job_id w
                = (Ok (Some (video_file job_id)),
                   with_files w (<[video_file job_id := content]> (files w))))
  ∨ ((content_of E url = None ∨ makedirs_ok E = false
      ∨ writable E (video_file job_id) = false)
     ∧ download_vidu_video E url job_id w = (Ok None, w)).
Proof.
  unfold download_vidu_video, try_except, bind, os_makedirs, write_file,
    modify, raise, ret.
  destruct (content_of E url) as [content|]; [|right; auto].
  destruct (makedirs_ok E); [|right; auto].
  destruct (writable E (video_file job_id)); [|right; auto].
  left. exists content. auto.
Qed.

(** The polling loop either returns nothing and leaves the disk alone, or
    returns the job's artifact path after writing there what some URL
    delivered. *)
Lemma poll_from_disk E job_id remaining :
  ∀ attempt w,
    (fst (poll_from E job_id remaining attempt w) = Ok None
     ∧ files (snd (poll_from E job_id remaining attempt w)) = files w)
    ∨ (∃ url content,
         content_of E url = Some content
         ∧ fst (poll_from E job_id remaining attempt w)
           = Ok (Some (video_file job_id))
         ∧ files (snd (poll_from E job_id remaining attempt w))
           = <[video_file job_id := content]> (files w)).
Proof.
  induction remaining as [|n IH]; intros attempt w; [left; split; reflexivity|].
  cbn [poll_from]. unfold bind.
  destruct (tasks_creations E attempt) as [|code [data|]] eqn:Hreply.
  - rewrite poll_attempt_pause by (left; rewrite Hreply; exact I).
    exact (IH (S attempt) (advance 1 w)).
  - destruct (decide (code = 200)) as [->|Hcode];
      [|rewrite poll_attempt_pause
          by (left; rewrite Hreply; left; exact Hcode);
        exact (IH (S attempt) (advance 1 w))].
    destruct (decide (state data = lit "success")) as [Hs|Hs].
    + destruct (creations data) as [|[|[|c u]] l] eqn:Hc.
      * rewrite (poll_attempt_no_artifact E job_id attempt w data Hreply Hs)
          by (rewrite Hc; exact I).
        left. split; reflexivity.
      * rewrite (poll_attempt_no_artifact E job_id attempt w data Hreply Hs)
          by (rewrite Hc; exact I).
        left. split; reflexivity.
      * rewrite (poll_attempt_no_artifact E job_id attempt w data Hreply Hs)
          by (rewrite Hc; exact I).
        left. split; reflexivity.
      * destruct (poll_attempt_success E job_id attempt w data c u l
                    Hreply Hs Hc) as (v & Hd & Hv).
        destruct (poll_attempt E job_id attempt w) as [r w1]. simpl in *.
        subst r.
        destruct (download_vidu_video_cases E (c :: u) job_id (counted w))
          as [(content & Hcont & _ & _ & Heq)|(_ & Heq)];
          rewrite Heq in Hd; injection Hd as <- <-.
        -- right. exists (c :: u), content. auto.
        -- left. split; reflexivity.
    + destruct (decide (state data = lit "failed")) as [Hf|Hf].
      * rewrite poll_attempt_failed by (exists data; auto).
        left. split; reflexivity.
      * rewrite poll_attempt_pause
          by (right; exists data; auto).
        exact (IH (S attempt) (advance 1 w)).
  - rewrite poll_attempt_pause
      by (left; rewrite Hreply; right; reflexivity).
    exact (IH (S attempt) (advance 1 w)).
Qed.

Lemma os_path_exists_cases path w :
  os_path_exists path w
  = (Ok (str_truthy path
         && match files w !! path with
            | Some _ => true
            | None => false
            end), w).
Proof.
  unfold os_path_exists, gets. destruct (files w !! path); reflexivity.
Qed.

Lemma placeholder_file_truthy : str_truthy placeholder_file = true.
Proof. vm_compute. reflexivity. Qed.

(** The placeholder tier, case by case. *)
Lemma mock_tier_cases E job_id w :
  (∃ body, placeholder_ready E job_id w body
           ∧ fst (mock_tier E job_id w) = Ok tt
           ∧ files (snd (mock_tier E job_id w))
             = <[video_file job_id := body]> (files w)
           ∧ view (snd (mock_tier E job_id w))
             = view (run_updates job_id
                       [upd_completed msg_placeholder
                          (lit "/api/download/" ++ job_id)
                          (video_file job_id)] w))
  ∨ ((∀ body, ¬ placeholder_ready E job_id w body)
     ∧ (∃ e, fst (mock_tier E job_id w) = Raise e)
     ∧ files (snd (mock_tier E job_id w)) = files w
     ∧ view (snd (mock_tier E job_id w)) = view w).
Proof.
  destruct (mock_tier E job_id w) as [r w'] eqn:Hm. cbn [fst snd].
  unfold mock_tier in Hm. cbv zeta in Hm.
  rewrite placeholder_file_alt, !video_file_alt in Hm.
  unfold bind at 1 in Hm.
  rewrite os_path_exists_cases, placeholder_file_truthy in Hm.
  destruct (files w !! placeholder_file) as [body|] eqn:Hfile; simpl in Hm.
  - unfold bind in Hm.
    destruct (shutil_copy2_cases E placeholder_file (video_file job_id) w)
      as [(body' & Hb & Hne & Hw & Heq)|(Hwhy & e & Heq)]; rewrite Heq in Hm.
    + rewrite update_job_data_run in Hm. injection Hm as <- <-.
      left. exists body'.
      split; [unfold placeholder_ready; auto|].
      split; [reflexivity|]. split.
      * rewrite update_job_data_files. reflexivity.
      * apply update_job_data_view. reflexivity.
    + injection Hm as <- <-. right. split.
      * intros b (Hb & Hne & Hw).
        destruct Hwhy as [H|[H|H]]; congruence.
      * split; [eexists; reflexivity|]. split; reflexivity.
  - injection Hm as <- <-. right. split.
    + intros b (Hb & _). congruence.
    + split; [eexists; reflexivity|]. split; reflexivity.
Qed.


(** The Hugging Face tier, case by case. *)
Lemma huggingface_tier_cases E job_id prompt w :
  (∃ body, hf_ready E job_id w body
           ∧ fst (huggingface_tier E job_id prompt w) = Ok tt
           ∧ files (snd (huggingface_tier E job_id prompt w))
             = <[video_file job_id := body]> (files w)
           ∧ view (snd (huggingface_tier E job_id prompt w))
             = view (run_updates job_id
                       [upd_huggingface;
                        upd_completed msg_generated
                          (lit "/api/download/" ++ job_id)
                          (video_file job_id)] w))
  ∨ ((∀ body, ¬ hf_ready E job_id w body)
     ∧ (∃ e, fst (huggingface_tier E job_id prompt w) = Raise e)
     ∧ files (snd (huggingface_tier E job_id prompt w)) = files w
     ∧ (view (snd (huggingface_tier E job_id prompt w)) = view w
        ∨ view (snd (huggingface_tier E job_id prompt w))
          = view (run_updates job_id [upd_huggingface] w))).
Proof.
  destruct (huggingface_tier E job_id prompt w) as [r w'] eqn:Hm.
  cbn [fst snd].
  unfold huggingface_tier in Hm. cbv zeta in Hm.
  rewrite !video_file_alt in Hm. unfold hf_ready, hf_temp.
  unfold bind at 1 in Hm.
  destruct (hf_login_ok E); simpl in Hm;
    [|injection Hm as <- <-; right;
      split; [intros b (H & _); discriminate H|];
      split; [eexists; reflexivity|]; split; [reflexivity|left; reflexivity]].
  unfold bind at 1 in Hm. rewrite update_job_data_run in Hm.
  set (w1 := run_updates job_id [upd_huggingface] w) in *.
  assert (Hf1 : files w1 = files w) by apply run_updates_files.
  unfold bind at 1 in Hm.
  destruct (predict E) as [result|]; simpl in Hm;
    [|injection Hm as <- <-; right;
      split; [intros b (_ & _ & _ & t & H & _); discriminate H|];
      split; [eexists; reflexivity|]; split; [exact Hf1|right; reflexivity]].
  unfold bind at 1, os_makedirs in Hm.
  destruct (makedirs_ok E); simpl in Hm;
    [|injection Hm as <- <-; right;
      split; [intros b (_ & H & _); discriminate H|];
      split; [eexists; reflexivity|]; split; [exact Hf1|right; reflexivity]].
  unfold bind at 1 in Hm. rewrite os_path_exists_cases in Hm.
  set (temp := match result with HfDict video => video | HfPath path => path end)
    in *.
  assert (Htemp : ∀ t, match result with
                       | HfDict video => Some video
                       | HfPath path => Some path
                       end = Some t → t = temp)
    by (intros t; subst temp; destruct result; simpl; congruence).
  assert (Htemp' : match result with
                   | HfDict video => Some video
                   | HfPath path => Some path
                   end = Some temp)
    by (subst temp; destruct result; reflexivity).
  clearbody temp.
  destruct temp as [|c t].
  { simpl in Hm. injection Hm as <- <-. right. split.
    - intros b (_ & _ & _ & t & Ht & Hne & _). apply Htemp in Ht. congruence.
    - split; [eexists; reflexivity|]. split; [exact Hf1|right; reflexivity]. }
  rewrite Hf1 in Hm.
  destruct (files w !! (c :: t)) as [body|] eqn:Hfile; simpl in Hm.
  - unfold bind in Hm.
    destruct (shutil_copy2_cases E (c :: t) (video_file job_id) w1)
      as [(body' & Hb & Hne & Hw & Heq)|(Hwhy & e & Heq)]; rewrite Heq in Hm.
    + rewrite update_job_data_run in Hm. injection Hm as <- <-.
      left. exists body'. rewrite Hf1 in Hb.
      split.
      * split; [reflexivity|]. split; [reflexivity|]. split; [exact Hw|].
        exists (c :: t). split; [exact Htemp'|].
        split; [discriminate|]. split; [exact Hne|exact Hb].
      * split; [reflexivity|]. split.
        -- rewrite update_job_data_files. simpl. rewrite Hf1. reflexivity.
        -- apply update_job_data_view. reflexivity.
    + injection Hm as <- <-. right. split.
      * intros b (_ & _ & Hw & t' & Ht & _ & Hne & Hb).
        apply Htemp in Ht. subst t'. rewrite Hf1 in Hwhy.
        destruct Hwhy as [H|[H|H]]; congruence.
      * split; [eexists; reflexivity|]. split; [exact Hf1|right; reflexivity].
  - injection Hm as <- <-. right. split.
    + intros b (_ & _ & _ & t' & Ht & _ & _ & Hb).
      apply Htemp in Ht. subst t'. congruence.
    + split; [eexists; reflexivity|]. split; [exact Hf1|right; reflexivity].
Qed.

(** The Vidu tier, case by case. *)
Lemma vidu_tier_cases E job_id prompt w :
  (∃ url content,
     content_of E url = Some content
     ∧ fst (vidu_tier E job_id prompt w) = Ok tt
     ∧ files (snd (vidu_tier E job_id prompt w))
       = <[video_file job_id := content]> (files w)
     ∧ view (snd (vidu_tier E job_id prompt w))
       = view (run_updates job_id
                 [upd_connecting;
                  upd_completed msg_generated
                    (PUBLIC_BASE_URL ++ lit "/api/download/" ++ job_id)
                    (video_file job_id)] w))
  ∨ ((∃ e, fst (vidu_tier E job_id prompt w) = Raise e)
     ∧ files (snd (vidu_tier E job_id prompt w)) = files w
     ∧ view (snd (vidu_tier E job_id prompt w))
       = view (run_updates job_id [upd_connecting] w)).
Proof.
  destruct (vidu_tier E job_id prompt w) as [r w'] eqn:Hm. cbn [fst snd].
  unfold vidu_tier in Hm. unfold bind at 1 in Hm.
  rewrite update_job_data_run in Hm.
  set (w1 := run_updates job_id [upd_connecting] w) in *.
  assert (Hf1 : files w1 = files w) by apply run_updates_files.
  unfold bind at 1 in Hm.
  destruct (val_truthy (VIDU_API_KEY E)); simpl in Hm;
    [|injection Hm as <- <-; right;
      split; [eexists; reflexivity|]; split; [exact Hf1|reflexivity]].
  unfold bind at 1 in Hm.
  destruct (text2video E) as [|code json]; simpl in Hm;
    [injection Hm as <- <-; right;
     split; [eexists; reflexivity|]; split; [exact Hf1|reflexivity]|].
  unfold bind at 1 in Hm.
  destruct (bool_decide (code = 200)); simpl in Hm;
    [|injection Hm as <- <-; right;
      split; [eexists; reflexivity|]; split; [exact Hf1|reflexivity]].
  unfold bind at 1 in Hm.
  destruct json as [task_id|]; simpl in Hm;
    [|injection Hm as <- <-; right;
      split; [eexists; reflexivity|]; split; [exact Hf1|reflexivity]].
  destruct (val_truthy task_id); simpl in Hm;
    [|injection Hm as <- <-; right;
      split; [eexists; reflexivity|]; split; [exact Hf1|reflexivity]].
  unfold bind at 1, poll_vidu_task in Hm.
  pose proof (poll_from_view E job_id 120 0%nat w1) as Hv.
  destruct (poll_from_disk E job_id 120 0%nat w1)
    as [[Hnone Hfiles]|(url & content & Hcont & Hsome & Hfiles)];
    destruct (poll_from E job_id 120 0%nat w1) as [r2 w2];
    cbn [fst snd] in *; subst r2.
  - simpl in Hm. injection Hm as <- <-. right.
    split; [eexists; reflexivity|]. split; [congruence|exact Hv].
  - rewrite video_file_truthy in Hm. unfold bind in Hm.
    rewrite update_job_data_run in Hm. injection Hm as <- <-.
    left. exists url, content. split; [exact Hcont|]. split; [reflexivity|].
    split.
    + rewrite update_job_data_files. congruence.
    + apply update_job_data_view. exact Hv.
Qed.

(** One run of the orchestration, with the disk: it returns normally and
    either some tier completed, having written the job's artifact and
    nothing else, or the error update was the last one and the disk is
    as it was. *)
Lemma orchestration_outcome E job_id prompt w :
  fst (video_generation_process E job_id prompt w) = Ok tt
  ∧ ((∃ pre message video_url body,
        opening_updates pre
        ∧ view (snd (video_generation_process E job_id prompt w))
          = view (run_updates job_id
                    (pre ++ [upd_completed message video_url
                               (video_file job_id)]) w)
        ∧ files (snd (video_generation_process E job_id prompt w))
          = <[video_file job_id := body]> (files w))
     ∨ (∃ pre,
          opening_updates pre
          ∧ view (snd (video_generation_process E job_id prompt w))
            = view (run_updates job_id (pre ++ [upd_error]) w)
          ∧ files (snd (video_generation_process E job_id prompt w))
            = files w)).
Proof.
  split; [exact (proj1 (video_generation_process_trace E job_id prompt w))|].
  unfold video_generation_process, use_huggingface_fallback,
    use_mock_video_fallback, try_except.
  destruct (vidu_tier_cases E job_id prompt w)
    as [(url & content & _ & Hr & Hf & Hv)|((e & Hr) & Hf & Hv)];
    destruct (vidu_tier E job_id prompt w) as [r1 w1];
    cbn [fst snd] in *; subst r1.
  { left. exists [upd_connecting]. do 3 eexists. cbn [fst snd].
    split; [left; reflexivity|]. split; [exact Hv|exact Hf]. }
  destruct (huggingface_tier_cases E job_id prompt w1)
    as [(body & _ & Hr2 & Hf2 & Hv2)|(_ & (e2 & Hr2) & Hf2 & Hv2)];
    destruct (huggingface_tier E job_id prompt w1) as [r2 w2];
    cbn [fst snd] in *; subst r2.
  { left. exists [upd_connecting; upd_huggingface]. do 3 eexists.
    cbn [fst snd].
    split; [right; reflexivity|]. split.
    - rewrite Hv2.
      apply (run_updates_view job_id [upd_huggingface; _] w1
               (run_updates job_id [upd_connecting] w)). exact Hv.
    - rewrite Hf2, Hf. reflexivity. }
  assert (Hpre : ∃ pre, opening_updates pre
                        ∧ view w2 = view (run_updates job_id pre w)).
  { destruct Hv2 as [Hv2|Hv2].
    - exists [upd_connecting]. split; [left; reflexivity|]. congruence.
    - exists [upd_connecting; upd_huggingface]. split; [right; reflexivity|].
      rewrite Hv2.
      apply (run_updates_view job_id [upd_huggingface] w1
               (run_updates job_id [upd_connecting] w)). exact Hv. }
  destruct Hpre as (pre & Hpre & Hvpre).
  destruct (mock_tier_cases E job_id w2)
    as [(body & _ & Hr3 & Hf3 & Hv3)|(_ & (e3 & Hr3) & Hf3 & Hv3)];
    destruct (mock_tier E job_id w2) as [r3 w3];
    cbn [fst snd] in *; subst r3.
  - left. exists pre. do 3 eexists. cbn [fst snd].
    split; [exact Hpre|]. split.
    + rewrite Hv3, run_updates_snoc.
      apply update_job_data_view. exact Hvpre.
    + rewrite Hf3, Hf2, Hf. reflexivity.
  - right. exists pre. split; [exact Hpre|]. split.
    + rewrite update_job_data_run. cbn [snd]. rewrite run_updates_snoc.
      apply update_job_data_view. congruence.
    + rewrite update_job_data_files. congruence.
Qed.

(** ** How a run ends *)

Lemma upd_completed_fields m url path :
  upd_completed m url path !! "status" = Some (PyStr (lit "completed"))
  ∧ upd_completed m url path !! "message" = Some (PyStr m)
  ∧ upd_completed m url path !! "video_url" = Some (PyStr url)
  ∧ upd_completed m url path !! "video_path" = Some (PyStr path).
Proof. repeat split; vm_compute; reflexivity. Qed.

Lemma upd_error_fields :
  upd_error !! "status" = Some (PyStr (lit "error"))
  ∧ upd_error !! "message" = Some (PyStr msg_all_failed)
  ∧ upd_error !! "video_url" = Some PyNone.
Proof. repeat split; vm_compute; reflexivity. Qed.

Lemma last_update_visible job_id pre last w wf :
  tracked job_id w →
  view wf = view (run_updates job_id (pre ++ [last]) w) →
  ∃ d, visible wf job_id = Some (dict_update d last).
Proof.
  intros Ht Hv.
  destruct (run_keeps_tracked job_id pre w Ht) as (Hr & d & Hd & Hne).
  exists d. rewrite (visible_view job_id _ _ Hv), run_updates_snoc.
  exact (proj2 (update_tracked job_id last _ d Hr Hd Hne)).
Qed.

Lemma completed_answers job_id pre m url body w wf :
  tracked job_id w →
  view wf = view (run_updates job_id
                    (pre ++ [upd_completed m url (video_file job_id)]) w) →
  files wf !! video_file job_id = Some body →
  fst (get_status job_id wf) = Ok (completed_status job_id m url)
  ∧ fst (download_video job_id wf) = Ok (artifact_response job_id body).
Proof.
  intros Ht Hv Hfile.
  destruct (last_update_visible job_id pre _ w wf Ht Hv) as [d Hd].
  destruct (upd_completed_fields m url (video_file job_id))
    as (Hs & Hm & Hu & Hp).
  assert (Hs' : dict_update d (upd_completed m url (video_file job_id))
                !! "status" = Some (PyStr (lit "completed")))
    by (rewrite dict_update_lookup, Hs; reflexivity).
  rewrite get_status_eq, download_video_eq, Hd.
  rewrite (dict_truthy_lookup _ _ _ Hs'), Hs'.
  unfold dict_get. rewrite !dict_update_lookup, Hm, Hu, Hp. simpl.
  split; [reflexivity|].
  rewrite bool_decide_eq_false_2 by (intros H; apply H; reflexivity).
  assert (Hcons : ∃ c p, video_file job_id = c :: p)
    by (do 2 eexists; vm_compute; reflexivity).
  destruct Hcons as (c & p & Hcons).
  rewrite Hcons in Hfile |- *. rewrite Hfile. rewrite <- Hcons. reflexivity.
Qed.

Lemma error_answers job_id pre w wf :
  tracked job_id w →
  view wf = view (run_updates job_id (pre ++ [upd_error]) w) →
  fst (get_status job_id wf) = Ok (error_status job_id)
  ∧ fst (download_video job_id wf) = Raise NotReadyError.
Proof.
  intros Ht Hv.
  destruct (last_update_visible job_id pre _ w wf Ht Hv) as [d Hd].
  destruct upd_error_fields as (Hs & Hm & Hu).
  assert (Hs' : dict_update d upd_error !! "status"
                = Some (PyStr (lit "error")))
    by (rewrite dict_update_lookup, Hs; reflexivity).
  rewrite get_status_eq, download_video_eq, Hd.
  rewrite (dict_truthy_lookup _ _ _ Hs'), Hs'.
  unfold dict_get. rewrite !dict_update_lookup, Hm, Hu. simpl.
  split; [reflexivity|].
  rewrite bool_decide_eq_true_2; [reflexivity|].
  intros H. vm_compute in H. discriminate H.
Qed.

(** X5: for a job whose record the store returns, and while no call to
    Redis fails, a run of the orchestration never leaves the job in
    [processing]: afterwards either the status is [completed] and
    [download_video] serves the file written at the job's artifact path,
    or the status is [error], [download_video] fails with the not-ready
    error and no file was written. *)
Theorem run_ends_terminal (E : env) (job_id prompt : pystr) (w : world) :
  tracked job_id w →
  (∃ message video_url body,
     fst (get_status job_id
            (snd (video_generation_process E job_id prompt w)))
     = Ok (completed_status job_id message video_url)
     ∧ fst (download_video job_id
              (snd (video_generation_process E job_id prompt w)))
       = Ok (artifact_response job_id body)
     ∧ files (snd (video_generation_process E job_id prompt w))
       = <[video_file job_id := body]> (files w))
  ∨ (fst (get_status job_id
            (snd (video_generation_process E job_id prompt w)))
     = Ok (error_status job_id)
     ∧ fst (download_video job_id
              (snd (video_generation_process E job_id prompt w)))
       = Raise NotReadyError
     ∧ files (snd (video_generation_process E job_id prompt w)) = files w).
Proof.
  intros Ht.
  destruct (orchestration_outcome E job_id prompt w)
    as (_ & [(pre & m & url & body & _ & Hv & Hf)|(pre & _ & Hv & Hf)]).
  - left. exists m, url, body.
    assert (Hfile : files (snd (video_generation_process E job_id prompt w))
                    !! video_file job_id = Some body)
      by (rewrite Hf; apply lookup_insert_eq).
    destruct (completed_answers job_id pre m url body w _ Ht Hv Hfile).
    auto.
  - right. destruct (error_answers job_id pre w _ Ht Hv). auto.
Qed.

Lemma sample_created_tracked : tracked Sample.job (Sample.created true []).
Proof.
  split; [intros _; vm_compute; constructor|].
  exists (initial_job_data Sample.prompt). split; [vm_compute; reflexivity|].
  intros H. apply (f_equal (λ m : record, m !! "status")) in H.
  vm_compute in H. discriminate H.
Qed.

Lemma run_ends_terminal_witness :
  (∃ message video_url body,
     fst (get_status Sample.job Tier1Sample.finish)
     = Ok (completed_status Sample.job message video_url)
     ∧ fst (download_video Sample.job Tier1Sample.finish)
       = Ok (artifact_response Sample.job body)
     ∧ files Tier1Sample.finish
       = <[video_file Sample.job := body]> (files (Sample.created true [])))
  ∨ (fst (get_status Sample.job Tier1Sample.finish)
     = Ok (error_status Sample.job)
     ∧ fst (download_video Sample.job Tier1Sample.finish)
       = Raise NotReadyError
     ∧ files Tier1Sample.finish = files (Sample.created true [])).
Proof.
  exact (run_ends_terminal Tier1Sample.env_tier1 Sample.job Sample.prompt
           (Sample.created true []) sample_created_tracked).
Defined.

(** X6: a run of the orchestration changes no file but the job's own
    artifact [./videos/<job_id>.mp4]; in particular it never alters the
    placeholder or the file Hugging Face left. *)
Theorem run_writes_only_own_artifact (E : env) (job_id prompt path : pystr)
    (w : world) :
  path ≠ video_file job_id →
  files (snd (video_generation_process E job_id prompt w)) !! path
  = files w !! path.
Proof.
  intros Hne.
  destruct (orchestration_outcome E job_id prompt w)
    as (_ & [(pre & m & url & body & _ & _ & Hf)|(pre & _ & _ & Hf)]);
    rewrite Hf; [|reflexivity].
  apply lookup_insert_ne. congruence.
Qed.

Lemma run_writes_only_own_artifact_witness :
  files Tier2Sample.finish !! Tier2Sample.temp_file = Some [0; 1]%N.
Proof.
  refine (eq_trans
    (run_writes_only_own_artifact Tier2Sample.env_tier2 Sample.job
       Sample.prompt Tier2Sample.temp_file Tier2Sample.start _) _).
  - intros H. vm_compute in H. discriminate H.
  - vm_compute. reflexivity.
Defined.

(** ** Jobs are independent *)

Lemma update_job_data_other job_id other u w :
  other ≠ job_id →
  redis_lookup (st (snd (update_job_data job_id u w))) other
  = redis_lookup (st w) other
  ∧ memory_lookup (st (snd (update_job_data job_id u w))) other
    = memory_lookup (st w) other.
Proof.
  intros Hne. pose proof (update_job_data_step job_id u w) as Hstep.
  destruct (visible w job_id) as [d|]; [destruct (dict_truthy d)|].
  - destruct Hstep as (_ & _ & _ & _ & Hframe & _). exact (Hframe other Hne).
  - destruct Hstep as [-> _]. split; reflexivity.
  - destruct Hstep as [-> _]. split; reflexivity.
Qed.

Lemma run_updates_other job_id other us :
  other ≠ job_id →
  ∀ w, redis_lookup (st (run_updates job_id us w)) other
       = redis_lookup (st w) other
       ∧ memory_lookup (st (run_updates job_id us w)) other
         = memory_lookup (st w) other.
Proof.
  intros Hne. induction us as [|u us IH]; intros w; [split; reflexivity|].
  change (run_updates job_id (u :: us) w)
    with (run_updates job_id us (snd (update_job_data job_id u w))).
  destruct (IH (snd (update_job_data job_id u w))) as [-> ->].
  apply update_job_data_other. exact Hne.
Qed.

(** X7: under every schedule of Redis faults, neither the creation of a
    job nor a run of its orchestration changes the record either store
    holds for another job. *)
Theorem other_jobs_untouched (E : env) (job_id prompt other : pystr)
    (w : world) :
  other ≠ job_id →
  (redis_lookup (st (snd (generate_video job_id prompt w))) other
   = redis_lookup (st w) other
   ∧ memory_lookup (st (snd (generate_video job_id prompt w))) other
     = memory_lookup (st w) other)
  ∧ (redis_lookup (st (snd (video_generation_process E job_id prompt w))) other
     = redis_lookup (st w) other
     ∧ memory_lookup (st (snd (video_generation_process E job_id prompt w)))
         other
       = memory_lookup (st w) other).
Proof.
  intros Hne. split.
  - unfold generate_video.
    destruct (negb (str_truthy (strip prompt))); [split; reflexivity|].
    unfold bind. rewrite store_job_data_eq.
    destruct (redis_client (st w)); [destruct (next_call_fails w)|]; simpl;
      rewrite ?redis_lookup_put_redis, ?memory_lookup_put_memory;
      destruct (decide (other = job_id)); try contradiction;
      split; reflexivity.
  - destruct (video_generation_process_trace E job_id prompt w)
      as (_ & us & _ & Hv).
    assert (Hst : st (snd (video_generation_process E job_id prompt w))
                  = st (run_updates job_id us w))
      by (unfold view in Hv; congruence).
    rewrite Hst. apply run_updates_other. exact Hne.
Qed.

Lemma other_jobs_untouched_witness :
  redis_lookup
    (st (snd (video_generation_process Sample.offline (lit "another-job")
                Sample.prompt (Sample.created true []))))
    Sample.job
  = Some (initial_job_data Sample.prompt).
Proof.
  refine (eq_trans
    (proj1 (proj2 (other_jobs_untouched Sample.offline (lit "another-job")
                     Sample.prompt Sample.job (Sample.created true []) _))) _).
  - intros H. vm_compute in H. discriminate H.
  - vm_compute. reflexivity.
Defined.

(** ** Falling from tier to tier *)

Lemma update_job_data_clock job_id u w :
  queries (snd (update_job_data job_id u w)) = queries w
  ∧ slept (snd (update_job_data job_id u w)) = slept w.
Proof.
  rewrite update_job_data_eq. simpl.
  assert (Hag : queries (after_get w) = queries w
                ∧ slept (after_get w) = slept w)
    by (unfold after_get; destruct (redis_client (st w)); split; reflexivity).
  destruct (found w job_id) as [[d o]|]; [|exact Hag].
  destruct (dict_truthy d); [split; reflexivity|exact Hag].
Qed.

(** The Vidu tier up to the polling loop, when the submission is
    accepted: what is left is the loop and what follows it. *)
Lemma vidu_tier_accepted E job_id prompt w :
  submission_accepted E →
  vidu_tier E job_id prompt w
  = match poll_vidu_task E job_id
            (snd (update_job_data job_id upd_connecting w)) with
    | (Ok (Some path), w2) =>
        if str_truthy path then
          (Ok tt,
           snd (update_job_data job_id
                  (upd_completed msg_generated
                     (PUBLIC_BASE_URL ++ lit "/api/download/" ++ job_id) path)
                  w2))
        else (Raise (Exception "Vidu API failed"), w2)
    | (Ok None, w2) => (Raise (Exception "Vidu API failed"), w2)
    | (Raise e, w2) => (Raise e, w2)
    end.
Proof.
  intros (Hkey & task_id & Hpost & Htask).
  unfold vidu_tier, bind. rewrite update_job_data_run. cbn [snd].
  change (run_updates job_id [upd_connecting] w)
    with (snd (update_job_data job_id upd_connecting w)).
  rewrite Hkey. simpl. rewrite Hpost. simpl.
  rewrite ?bool_decide_eq_true_2 by reflexivity. simpl.
  rewrite Htask. simpl.
  destruct (poll_vidu_task E job_id
              (snd (update_job_data job_id upd_connecting w)))
    as [[[path|]|e] w2]; simpl; try reflexivity.
  destruct (str_truthy path); simpl; [|reflexivity].
  rewrite update_job_data_run. reflexivity.
Qed.

(** X8: when the submission to Vidu fails (no credential, no reply, a
    code other than 200, an unreadable body, no task id), the run goes on
    with the Hugging Face tier in the state the connecting update left:
    no status query was sent and nothing was slept. *)
Theorem submission_failure_skips_polling (E : env) (job_id prompt : pystr)
    (w : world) :
  submission_fails E →
  video_generation_process E job_id prompt w
  = use_huggingface_fallback E job_id prompt
      (snd (update_job_data job_id upd_connecting w))
  ∧ queries (snd (update_job_data job_id upd_connecting w)) = queries w
  ∧ slept (snd (update_job_data job_id upd_connecting w)) = slept w.
Proof.
  intros Hfail. split; [|apply update_job_data_clock].
  unfold video_generation_process, try_except, vidu_tier, bind.
  rewrite update_job_data_run. cbn [snd].
  change (run_updates job_id [upd_connecting] w)
    with (snd (update_job_data job_id upd_connecting w)).
  destruct (val_truthy (VIDU_API_KEY E)) eqn:Hkey; simpl; [|reflexivity].
  destruct Hfail as [H|[H|(code & json & Hpost & Hwhy)]];
    [congruence | rewrite H; reflexivity |].
  rewrite Hpost. simpl.
  destruct (decide (code = 200)) as [->|Hcode];
    [|rewrite bool_decide_eq_false_2 by exact Hcode; reflexivity].
  rewrite ?bool_decide_eq_true_2 by reflexivity. simpl.
  destruct Hwhy as [H|[->|(task_id & -> & Htask)]];
    [contradiction | reflexivity |].
  simpl. rewrite Htask. reflexivity.
Qed.

Lemma submission_failure_skips_polling_witness :
  queries (snd (video_generation_process Sample.offline Sample.job
                  Sample.prompt (Sample.created true []))) = 0%nat.
Proof.
  rewrite (proj1 (submission_failure_skips_polling Sample.offline Sample.job
                    Sample.prompt (Sample.created true [])
                    (or_introl eq_refl))).
  vm_compute. reflexivity.
Defined.

(** X9: when the submission is accepted and all 120 status queries find
    the task pending, the run goes on with the Hugging Face tier, 120
    queries and 600 seconds later: running out of the polling budget is
    handled as a failure of the tier. *)
Theorem polling_timeout_falls_back (E : env) (job_id prompt : pystr)
    (w : world) :
  submission_accepted E →
  (∀ i, (i < 120)%nat → pending (tasks_creations E i)) →
  video_generation_process E job_id prompt w
  = use_huggingface_fallback E job_id prompt
      (advance 120 (snd (update_job_data job_id upd_connecting w))).
Proof.
  intros Hacc Hpend.
  unfold video_generation_process, try_except.
  rewrite (vidu_tier_accepted E job_id prompt w Hacc).
  unfold poll_vidu_task.
  change 120%nat with (120 + 0)%nat at 1.
  rewrite poll_from_pending by exact Hpend. reflexivity.
Qed.

Lemma polling_timeout_falls_back_witness :
  slept (snd (video_generation_process TimeoutSample.silent Sample.job
                Sample.prompt (Sample.created true []))) = 600
  ∧ queries (snd (video_generation_process TimeoutSample.silent Sample.job
                    Sample.prompt (Sample.created true []))) = 120%nat.
Proof.
  rewrite (polling_timeout_falls_back TimeoutSample.silent Sample.job
             Sample.prompt (Sample.created true [])).
  - split; vm_compute; reflexivity.
  - split; [reflexivity|]. eexists. split; reflexivity.
  - intros i _. left. exact I.
Defined.

(** One turn of the loop that finds the artifact and fetches it. *)
Lemma poll_attempt_fetch E job_id attempt w url content :
  reports_success (tasks_creations E attempt) url →
  content_of E url = Some content →
  makedirs_ok E = true →
  writable E (video_file job_id) = true →
  poll_attempt E job_id attempt w
  = (Ok (Return (Some (video_file job_id))),
     with_files (counted w) (<[video_file job_id := content]> (files w))).
Proof.
  intros (data & l & Hreply & Hstate & Hcre & Hurl) Hcont Hmk Hwr.
  destruct url as [|c u]; [contradiction|].
  destruct (poll_attempt_success E job_id attempt w data c u l
              Hreply Hstate Hcre) as (v & Hd & Hv).
  destruct (download_vidu_video_cases E (c :: u) job_id (counted w))
    as [(content' & Hcont' & _ & _ & Heq)|(Hwhy & _)].
  - rewrite Heq in Hd. injection Hd as <- Hw.
    destruct (poll_attempt E job_id attempt w) as [r w1]. simpl in *.
    subst r w1. congruence.
  - destruct Hwhy as [H|[H|H]]; congruence.
Qed.

(** X10: the job's record is in the store and no call to Redis fails;
    Vidu accepts the submission, the first [k] status queries find the
    task pending and the next one reports success with an artifact URL
    whose download works.  Then the job ends [completed] with the public
    download link, [download_video] serves exactly the bytes Vidu
    delivered, and the run has sent [k + 1] queries and slept [5 k]
    seconds; the Hugging Face tier is not entered. *)
Theorem vidu_success_end_to_end (E : env) (job_id prompt url : pystr)
    (content : list N) (k : nat) (w : world) :
  tracked job_id w →
  submission_accepted E →
  (k < 120)%nat →
  (∀ i, (i < k)%nat → pending (tasks_creations E i)) →
  reports_success (tasks_creations E k) url →
  content_of E url = Some content →
  makedirs_ok E = true →
  writable E (video_file job_id) = true →
  fst (get_status job_id (snd (video_generation_process E job_id prompt w)))
  = Ok (completed_status job_id msg_generated
          (PUBLIC_BASE_URL ++ lit "/api/download/" ++ job_id))
  ∧ fst (download_video job_id
           (snd (video_generation_process E job_id prompt w)))
    = Ok (artifact_response job_id content)
  ∧ queries (snd (video_generation_process E job_id prompt w))
    = (k + 1 + queries w)%nat
  ∧ slept (snd (video_generation_process E job_id prompt w))
    = slept w + 5 * Z.of_nat k
  ∧ List.length (update_log (snd (video_generation_process E job_id prompt w)))
    = (2 + List.length (update_log w))%nat.
Proof.
  intros Ht Hacc Hk Hpend Hsucc Hcont Hmk Hwr.
  set (w1 := snd (update_job_data job_id upd_connecting w)).
  set (w2 := with_files (counted (advance k w1))
               (<[video_file job_id := content]> (files (advance k w1)))).
  set (done := upd_completed msg_generated
                 (PUBLIC_BASE_URL ++ lit "/api/download/" ++ job_id)
                 (video_file job_id)).
  assert (Hrun : video_generation_process E job_id prompt w
                 = (Ok tt, snd (update_job_data job_id done w2))).
  { unfold video_generation_process, try_except.
    rewrite (vidu_tier_accepted E job_id prompt w Hacc).
    unfold poll_vidu_task. fold w1.
    replace 120%nat with (k + S (119 - k))%nat by lia.
    rewrite poll_from_pending by exact Hpend.
    cbn [poll_from]. unfold bind.
    rewrite (poll_attempt_fetch E job_id (0 + k) (advance k w1) url content
               Hsucc Hcont Hmk Hwr).
    unfold ret. cbn iota beta. rewrite video_file_truthy. reflexivity. }
  rewrite Hrun. cbn [snd].
  assert (Ht1 : tracked job_id w1) by (apply update_keeps_tracked; exact Ht).
  assert (Ht2 : tracked job_id w2)
    by (apply (tracked_view job_id w1 w2); [reflexivity|exact Ht1]).
  destruct Ht2 as (Hr2 & d2 & Hd2 & Hne2).
  destruct (update_job_data_clock job_id done w2) as [Hq Hs].
  destruct (update_job_data_clock job_id upd_connecting w) as [Hq1 Hs1].
  fold w1 in Hq1, Hs1.
  assert (Hans : fst (get_status job_id (snd (update_job_data job_id done w2)))
                 = Ok (completed_status job_id msg_generated
                         (PUBLIC_BASE_URL ++ lit "/api/download/" ++ job_id))
                 ∧ fst (download_video job_id
                          (snd (update_job_data job_id done w2)))
                   = Ok (artifact_response job_id content)).
  { apply (completed_answers job_id [] msg_generated _ content w2).
    - split; [exact Hr2|eauto].
    - reflexivity.
    - rewrite update_job_data_files. apply lookup_insert_eq. }
  destruct Hans as [Hst Hdl].
  split; [exact Hst|]. split; [exact Hdl|].
  split; [rewrite Hq; simpl; rewrite Hq1; lia|].
  split; [rewrite Hs; simpl; rewrite Hs1; reflexivity|].
  pose proof (update_job_data_step job_id done w2) as Hstep2.
  rewrite Hd2, (bool_decide_eq_true_2 _ Hne2 : dict_truthy d2 = true) in Hstep2.
  destruct Hstep2 as (Hlog2 & _).
  rewrite Hlog2, length_app. simpl.
  destruct Ht as (Hr & d & Hd & Hne).
  pose proof (update_job_data_step job_id upd_connecting w) as Hstep1.
  rewrite Hd, (bool_decide_eq_true_2 _ Hne : dict_truthy d = true) in Hstep1.
  destruct Hstep1 as (Hlog1 & _). fold w1 in Hlog1.
  rewrite Hlog1, length_app. simpl. lia.
Qed.

Lemma vidu_success_end_to_end_witness :
  fst (download_video Sample.job Tier1Sample.finish)
  = Ok (artifact_response Sample.job [7; 8; 9]%N).
Proof.
  refine (proj1 (proj2
    (vidu_success_end_to_end Tier1Sample.env_tier1 Sample.job Sample.prompt
       Tier1Sample.artifact_url [7; 8; 9]%N 2 (Sample.created true [])
       sample_created_tracked _ _ _ _ _ _ _))).
  - split; [reflexivity|]. eexists. split; reflexivity.
  - lia.
  - intros i Hi. right.
    exists {| state := lit "processing"; creations := [] |}.
    destruct i as [|[|i]]; [| |lia];
      (split; [reflexivity|]);
      split; intros H; vm_compute in H; discriminate H.
  - exists {| state := lit "success";
              creations := [PyStr Tier1Sample.artifact_url] |}, [].
    split; [reflexivity|]. split; [reflexivity|]. split; [reflexivity|].
    intros H. vm_compute in H. discriminate H.
  - vm_compute. reflexivity.
  - reflexivity.
  - reflexivity.
Defined.




Lemma placeholder_ready_files E job_id w w' body :
  files w' = files w →
  placeholder_ready E job_id w body → placeholder_ready E job_id w' body.
Proof. intros Hf (H1 & H2 & H3). unfold placeholder_ready. rewrite Hf. auto. Qed.

(** X12: the job's record is in the store and no call to Redis fails; the
    Vidu tier and the Hugging Face tier fail, and the placeholder file
    exists.  Then the job ends [completed] with the placeholder message
    and [download_video] serves exactly the bytes of the placeholder. *)
Theorem placeholder_success_end_to_end (E : env) (job_id prompt : pystr)
    (body : list N) (e1 e2 : exn) (w : world) :
  tracked job_id w →
  fst (vidu_tier E job_id prompt w) = Raise e1 →
  fst (huggingface_tier E job_id prompt (snd (vidu_tier E job_id prompt w)))
  = Raise e2 →
  placeholder_ready E job_id w body →
  fst (get_status job_id (snd (video_generation_process E job_id prompt w)))
  = Ok (completed_status job_id msg_placeholder
          (lit "/api/download/" ++ job_id))
  ∧ fst (download_video job_id
           (snd (video_generation_process E job_id prompt w)))
    = Ok (artifact_response job_id body).
Proof.
  intros Ht Hfail1 Hfail2 Hready.
  unfold video_generation_process, use_huggingface_fallback,
    use_mock_video_fallback, try_except.
  destruct (vidu_tier_cases E job_id prompt w)
    as [(_ & _ & _ & Hok & _)|(_ & Hf1 & Hv1)]; [congruence|].
  destruct (vidu_tier E job_id prompt w) as [r1 w1].
  cbn [fst snd] in *. subst r1.
  destruct (huggingface_tier_cases E job_id prompt w1)
    as [(_ & _ & Hok & _)|(_ & _ & Hf2 & Hv2)]; [congruence|].
  destruct (huggingface_tier E job_id prompt w1) as [r2 w2].
  cbn [fst snd] in *. subst r2.
  assert (Hready2 : placeholder_ready E job_id w2 body)
    by (apply (placeholder_ready_files E job_id w); [congruence|exact Hready]).
  destruct (mock_tier_cases E job_id w2)
    as [(body' & (Hb' & _) & Hok & Hf3 & Hv3)|(Hnot & _)];
    [|exfalso; exact (Hnot body Hready2)].
  assert (body' = body) by (destruct Hready2 as (Hb & _); congruence).
  subst body'.
  destruct (mock_tier E job_id w2) as [r3 w3].
  cbn [fst snd] in *. subst r3.
  assert (Hpre : ∃ pre, view w2 = view (run_updates job_id pre w)).
  { destruct Hv2 as [Hv2|Hv2].
    - exists [upd_connecting]. congruence.
    - exists [upd_connecting; upd_huggingface]. rewrite Hv2.
      apply (run_updates_view job_id [upd_huggingface] w1
               (run_updates job_id [upd_connecting] w)). exact Hv1. }
  destruct Hpre as (pre & Hpre).
  apply (completed_answers job_id pre msg_placeholder _ body w w3 Ht).
  - rewrite Hv3, run_updates_snoc. apply update_job_data_view. exact Hpre.
  - rewrite Hf3. apply lookup_insert_eq.
Qed.

Lemma placeholder_success_end_to_end_witness :
  fst (download_video Sample.job Tier3Sample.finish)
  = Ok (artifact_response Sample.job [1; 2; 3; 4]%N).
Proof.
  refine (proj2
    (placeholder_success_end_to_end Sample.offline Sample.job Sample.prompt
       [1; 2; 3; 4]%N (Exception "Missing Vidu API key") (Exception "predict")
       Tier3Sample.start _ _ _ _)).
  - split; [intros _; vm_compute; constructor|].
    exists (initial_job_data Sample.prompt). split; [vm_compute; reflexivity|].
    intros H. apply (f_equal (λ m : record, m !! "status")) in H.
    vm_compute in H. discriminate H.
  - vm_compute. reflexivity.
  - vm_compute. reflexivity.
  - split; [vm_compute; reflexivity|].
    split; [intros H; vm_compute in H; discriminate H|reflexivity].
Defined.

(** ** The WhatsApp webhook *)

Lemma send_whatsapp_message_eq to body media b :
  send_whatsapp_message to body media b
  = (Ok tt, after_send (Message to body (media_of media)) b).
Proof.
  unfold send_whatsapp_message, btry, bbind, messages_create, note,
    after_send, accepts, media_of.
  destruct b as [w c fl ns bg]. simpl.
  destruct c; [|reflexivity].
  destruct fl as [|[] fl]; reflexivity.
Qed.

Lemma lit_generate_prefix s :
  startswith s (lit "/generate") = true → startswith s (lit "/") = true.
Proof.
  unfold startswith. rewrite !bool_decide_eq_true.
  replace (List.length (lit "/generate")) with 9%nat by (vm_compute; reflexivity).
  replace (List.length (lit "/")) with 1%nat by (vm_compute; reflexivity).
  intros H. replace (take 1 s) with (take 1 (take 9 s))
    by (rewrite take_take; reflexivity).
  rewrite H. vm_compute. reflexivity.
Qed.

Lemma handle_whatsapp_command_returns lower command user_phone b :
  ∃ text, handle_whatsapp_command lower command user_phone b = (Ok text, b).
Proof.
  unfold handle_whatsapp_command, bret.
  destruct (bool_decide (strip (lower command) = lit "/help"));
    [eexists; reflexivity|].
  destruct (bool_decide (strip (lower command) = lit "/status"));
    eexists; reflexivity.
Qed.

(** Closes the three parts of the webhook's answer in a branch that
    returned a status without detail. *)
Ltac close_webhook :=
  split;
  [ eexists; split; [reflexivity|];
    split; [simpl; set_solver | left; reflexivity]
  | split; [reflexivity | intros H; discriminate H] ].

(** X13: whatever the message and whatever Twilio does, the webhook
    returns normally with one of the statuses [error],
    [prompt_too_short], [processing], [success], [help_sent]: the
    [invalid_command] answer and the [except] branch of the source are
    never reached.  It never touches the job store or the disk, and
    without a Twilio client it answers [error] and does nothing. *)
Theorem webhook_answers (lower : pystr → pystr)
    (From To Body MessageSid : pystr) (b : bot) :
  (∃ reply,
     fst (whatsapp_webhook lower From To Body MessageSid b) = Ok reply
     ∧ reply_status reply ∈ webhook_statuses
     ∧ (reply_message reply = NoDetail
        ∨ reply_message reply = Detail (lit "Service unavailable")))
  ∧ core (snd (whatsapp_webhook lower From To Body MessageSid b)) = core b
  ∧ (twilio_client b = false →
     whatsapp_webhook lower From To Body MessageSid b
     = (Ok {| reply_status := lit "error";
              reply_message := Detail (lit "Service unavailable") |}, b)).
Proof.
  destruct (whatsapp_webhook lower From To Body MessageSid b) as [r b']
    eqn:Hw.
  cbn [fst snd]. unfold whatsapp_webhook, bbind at 1 in Hw.
  unfold webhook_statuses.
  destruct (twilio_client b) eqn:Hc; cbn [negb] in Hw.
  2:{ unfold bret in Hw. injection Hw as <- <-.
      split; [|split; reflexivity].
      eexists. split; [reflexivity|]. split; [|right; reflexivity].
      simpl. set_solver. }
  unfold btry, bbind, bret in Hw.
  destruct (startswith (strip Body) (lit "/generate ")).
  - destruct (List.length (strip (drop 10 (strip Body))) <? 5)%nat.
    + rewrite send_whatsapp_message_eq in Hw. injection Hw as <- <-.
      close_webhook.
    + unfold add_task in Hw. injection Hw as <- <-. close_webhook.
  - destruct (startswith (strip Body) (lit "/")) eqn:Hslash.
    + destruct (handle_whatsapp_command_returns lower (strip Body) From b)
        as [text Htext].
      rewrite Htext, send_whatsapp_message_eq in Hw. injection Hw as <- <-.
      close_webhook.
    + destruct (startswith (strip Body) (lit "/generate")) eqn:Hgen.
      { apply lit_generate_prefix in Hgen. congruence. }
      cbn [negb] in Hw. rewrite send_whatsapp_message_eq in Hw.
      injection Hw as <- <-. close_webhook.
Qed.

Lemma lstrip_head s :
  lstrip s = [] ∨ ∃ c t, lstrip s = c :: t ∧ py_isspace c = false.
Proof.
  induction s as [|c s IH]; simpl; [left; reflexivity|].
  destruct (py_isspace c) eqn:Hc; [exact IH|].
  right. exists c, s. auto.
Qed.

Lemma lstrip_idem s : lstrip (lstrip s) = lstrip s.
Proof.
  destruct (lstrip_head s) as [->|(c & t & -> & Hc)]; [reflexivity|].
  simpl. rewrite Hc. reflexivity.
Qed.

Lemma lstrip_app_nonspace u c v :
  py_isspace c = false → lstrip (u ++ c :: v) = lstrip u ++ c :: v.
Proof.
  intros Hc. induction u as [|a u IH]; simpl.
  - rewrite Hc. reflexivity.
  - destruct (py_isspace a); [exact IH|reflexivity].
Qed.

Lemma rstrip_cons_nonspace c t :
  py_isspace c = false → rstrip (c :: t) = c :: rstrip t.
Proof.
  intros Hc. unfold rstrip. rewrite reverse_cons.
  rewrite (lstrip_app_nonspace _ c [] Hc), reverse_app. reflexivity.
Qed.

Lemma rstrip_idem s : rstrip (rstrip s) = rstrip s.
Proof. unfold rstrip. rewrite reverse_involutive, lstrip_idem. reflexivity. Qed.

Lemma strip_idem s : strip (strip s) = strip s.
Proof.
  unfold strip.
  destruct (lstrip_head s) as [->|(c & t & -> & Hc)]; [reflexivity|].
  rewrite (rstrip_cons_nonspace c t Hc). simpl. rewrite Hc.
  rewrite (rstrip_cons_nonspace c _ Hc), rstrip_idem. reflexivity.
Qed.

Lemma strip_last s :
  strip s = [] ∨ ∃ u c, strip s = u ++ [c] ∧ py_isspace c = false.
Proof.
  unfold strip, rstrip.
  destruct (lstrip_head (reverse (lstrip s))) as [->|(c & t & -> & Hc)];
    [left; reflexivity|].
  right. exists (reverse t), c. rewrite reverse_cons. auto.
Qed.

Lemma strip_not_blank s : strip s ≠ [] → ¬ blank (strip s).
Proof.
  intros Hne Hb. apply strip_nil_iff in Hb. rewrite strip_idem in Hb.
  contradiction.
Qed.

(** After a stripped text that begins with ["/generate "] there is
    something that is not white space. *)
Lemma generate_has_prompt body :
  startswith (strip body) (lit "/generate ") = true →
  ¬ blank (drop 10 (strip body)).
Proof.
  unfold startswith. rewrite bool_decide_eq_true.
  replace (List.length (lit "/generate ")) with 10%nat
    by (vm_compute; reflexivity).
  intros Htake Hblank.
  destruct (strip_last body) as [Hnil|(u & c & Hs & Hc)].
  - rewrite Hnil in Htake. vm_compute in Htake. discriminate Htake.
  - rewrite Hs in Htake, Hblank.
    destruct (decide (10 ≤ List.length u)%nat) as [Hlen|Hlen].
    + rewrite drop_app_le in Hblank by exact Hlen.
      unfold blank in Hblank. apply Forall_app in Hblank as [_ Hlast].
      apply Forall_inv in Hlast. congruence.
    + assert (Hlast : last (take 10 (u ++ [c])) = Some c).
      { rewrite take_ge by (rewrite length_app; simpl; lia).
        apply last_snoc. }
      rewrite Htake in Hlast. vm_compute in Hlast.
      injection Hlast as <-. vm_compute in Hc. discriminate Hc.
Qed.

(** X14: with a Twilio client, a message that (stripped) begins with
    ["/generate "] is answered in one of two ways.  When what follows,
    stripped, has fewer than five characters, the "too short" text is sent
    and no task is started.  Otherwise exactly one background task is
    started, for that stripped text and the sender, and nothing is sent;
    the prompt handed over is never blank and has no white space at
    either end. *)
Theorem webhook_generate (lower : pystr → pystr)
    (From To Body MessageSid : pystr) (b : bot) :
  twilio_client b = true →
  startswith (strip Body) (lit "/generate ") = true →
  ¬ blank (strip (drop 10 (strip Body)))
  ∧ strip (strip (drop 10 (strip Body))) = strip (drop 10 (strip Body))
  ∧ ((List.length (strip (drop 10 (strip Body))) < 5)%nat →
     whatsapp_webhook lower From To Body MessageSid b
     = (Ok {| reply_status := lit "prompt_too_short";
              reply_message := NoDetail |},
        after_send (Message From text_too_short None) b))
  ∧ ((5 ≤ List.length (strip (drop 10 (strip Body))))%nat →
     whatsapp_webhook lower From To Body MessageSid b
     = (Ok {| reply_status := lit "processing"; reply_message := NoDetail |},
        Bot (core b) (twilio_client b) (twilio_faults b) (notifications b)
            (background b ++ [(strip (drop 10 (strip Body)), From)]))).
Proof.
  intros Hc Hgen.
  split.
  { apply strip_not_blank. intros Hnil. apply strip_nil_iff in Hnil.
    exact (generate_has_prompt Body Hgen Hnil). }
  split; [apply strip_idem|].
  split; intros Hlen;
    unfold whatsapp_webhook, bbind at 1; rewrite Hc; cbn [negb];
    unfold btry, bbind, bret; rewrite Hgen.
  - apply Nat.ltb_lt in Hlen. rewrite Hlen.
    rewrite send_whatsapp_message_eq. reflexivity.
  - apply Nat.ltb_ge in Hlen. rewrite Hlen. unfold add_task. rewrite Hc.
    reflexivity.
Qed.

Lemma webhook_generate_witness :
  background
    (snd (whatsapp_webhook BotSample.ascii_lower BotSample.phone (lit "bot")
            (lit "  /generate   a cat in space ") (lit "SM1")
            (BotSample.idle (Sample.empty_world true []))))
  = [(lit "a cat in space", BotSample.phone)].
Proof.
  assert (Hgen : startswith (strip (lit "  /generate   a cat in space "))
                   (lit "/generate ") = true) by (vm_compute; reflexivity).
  rewrite (proj2 (proj2 (proj2
    (webhook_generate BotSample.ascii_lower BotSample.phone (lit "bot")
       (lit "  /generate   a cat in space ") (lit "SM1")
       (BotSample.idle (Sample.empty_world true [])) eq_refl Hgen)))).
  - vm_compute. reflexivity.
  - vm_compute. lia.
Defined.

(** ** The WhatsApp generation handler *)

Lemma lift_eq {A} (m : M A) b :
  lift m b = (fst (m (core b)), with_core b (snd (m (core b)))).
Proof. unfold lift, with_core. destruct (m (core b)). reflexivity. Qed.

Lemma whatsapp_video_url_truthy job_id :
  media_of (Some (whatsapp_video_url job_id))
  = Some (whatsapp_video_url job_id).
Proof. vm_compute. reflexivity. Qed.

Lemma messages_send_all ms b : messages (send_all ms b) = messages b ++ ms.
Proof.
  revert b. induction ms as [|m ms IH]; intros b; simpl.
  - rewrite app_nil_r. reflexivity.
  - rewrite IH. unfold messages, after_send. simpl.
    rewrite map_app, <- app_assoc. reflexivity.
Qed.

Lemma send_all_frame ms b :
  core (send_all ms b) = core b
  ∧ background (send_all ms b) = background b
  ∧ twilio_client (send_all ms b) = twilio_client b.
Proof.
  revert b. induction ms as [|m ms IH]; intros b; simpl; [auto|].
  destruct (IH (after_send m b)) as (-> & -> & ->). auto.
Qed.

Lemma store_job_data_returns job_id data w :
  fst (store_job_data job_id data w) = Ok tt.
Proof.
  rewrite store_job_data_eq.
  destruct (redis_client (st w)), (next_call_fails w); reflexivity.
Qed.

Lemma says_completed_dec (o : option record) :
  says_completed o
  ∨ (¬ says_completed o
     ∧ (job_data_falsy o = true
        ∨ ∃ d, o = Some d ∧ dict_truthy d = true
               ∧ (d !! "status" = None
                  ∨ ∃ s, d !! "status" = Some s
                         ∧ s ≠ PyStr (lit "completed")))).
Proof.
  destruct o as [d|].
  2:{ right. split; [intros (d & H & _); discriminate H|]. left. reflexivity. }
  destruct (dict_truthy d) eqn:Ht.
  2:{ right. split.
      - intros (d' & [= <-] & Hs). unfold dict_truthy in Ht.
        apply bool_decide_eq_false in Ht.
        assert (d = ∅) as -> by (destruct (decide (d = ∅)); [auto|contradiction]).
        rewrite lookup_empty in Hs. discriminate Hs.
      - left. simpl. rewrite Ht. reflexivity. }
  destruct (d !! "status") as [s|] eqn:Hs.
  - destruct (decide (s = PyStr (lit "completed"))) as [->|Hne].
    + left. exists d. auto.
    + right. split.
      * intros (d' & [= <-] & Hs'). congruence.
      * right. exists d. split; [reflexivity|]. split; [exact Ht|].
        right. exists s. auto.
  - right. split.
    + intros (d' & [= <-] & Hs'). congruence.
    + right. exists d. split; [reflexivity|]. split; [exact Ht|].
      left. exact Hs.
Qed.

(** The handler, run: it returns normally, and what it sends last
    depends on the record read back only. *)
Lemma handle_whatsapp_video_generation_cases E uuid4 prompt user_phone b :
  ∃ closing,
    handle_whatsapp_video_generation E uuid4 prompt user_phone b
    = (Ok tt, send_all closing
                (whatsapp_progress E uuid4 prompt user_phone b))
    ∧ ((closing = [msg_video uuid4 user_phone;
                   msg_ready uuid4 prompt user_phone]
        ∧ says_completed
            (visible (whatsapp_finish E uuid4 prompt user_phone (core b))
                     uuid4))
       ∨ (closing = [msg_failed user_phone]
          ∧ ¬ says_completed
                (visible (whatsapp_finish E uuid4 prompt user_phone (core b))
                         uuid4))
       ∨ (closing = [msg_sorry user_phone]
          ∧ ∃ d, visible (whatsapp_finish E uuid4 prompt user_phone (core b))
                         uuid4 = Some d
                 ∧ d !! "status" = None)).
Proof.
  destruct (handle_whatsapp_video_generation E uuid4 prompt user_phone b)
    as [r bf] eqn:Hh.
  unfold handle_whatsapp_video_generation, btry, bbind in Hh.
  rewrite send_whatsapp_message_eq in Hh. cbv beta iota in Hh.
  rewrite lift_eq, store_job_data_returns in Hh. cbv beta iota in Hh.
  rewrite lift_eq in Hh.
  change (fst (sleep 5 ?w)) with (@Ok unit tt) in Hh. cbv beta iota in Hh.
  rewrite send_whatsapp_message_eq in Hh. cbv beta iota in Hh.
  rewrite lift_eq in Hh.
  rewrite (proj1 (video_generation_process_trace E uuid4 prompt _)) in Hh.
  cbv beta iota in Hh.
  rewrite lift_eq, get_job_data_eq in Hh.
  cbn [fst snd core after_send with_core] in Hh.
  change (snd (video_generation_process E uuid4 prompt _))
    with (whatsapp_finish E uuid4 prompt user_phone (core b)) in Hh.
  set (b5 := with_core _ (after_get _)) in Hh.
  assert (Hb5 : b5 = whatsapp_progress E uuid4 prompt user_phone b)
    by (destruct b; reflexivity).
  clearbody b5. subst b5.
  destruct (says_completed_dec
              (visible (whatsapp_finish E uuid4 prompt user_phone (core b))
                       uuid4))
    as [Hyes|(Hno & [Hf|(d & Hv & Ht & [Hs|(s & Hs & Hne)])])].
  - pose proof Hyes as (d & Hv & Hs).
    rewrite Hv in Hh. cbn [job_data_falsy] in Hh.
    change (default ∅ (Some d)) with d in Hh.
    rewrite (dict_truthy_lookup _ _ _ Hs) in Hh. cbn [negb] in Hh.
    rewrite lift_eq in Hh. unfold dict_item in Hh. rewrite Hs in Hh.
    unfold ret, bret in Hh. cbn [fst snd] in Hh.
    rewrite bool_decide_eq_true_2 in Hh by reflexivity.
    rewrite !send_whatsapp_message_eq in Hh.
    rewrite whatsapp_video_url_truthy in Hh.
    injection Hh as <- <-.
    exists [msg_video uuid4 user_phone; msg_ready uuid4 prompt user_phone].
    split; [reflexivity|]. left. auto.
  - rewrite Hf in Hh. unfold bret in Hh.
    rewrite send_whatsapp_message_eq in Hh. injection Hh as <- <-.
    exists [msg_failed user_phone].
    split; [reflexivity|]. right. left. auto.
  - rewrite Hv in Hh. cbn [job_data_falsy] in Hh.
    change (default ∅ (Some d)) with d in Hh.
    rewrite Ht in Hh. cbn [negb] in Hh.
    rewrite lift_eq in Hh. unfold dict_item in Hh. rewrite Hs in Hh.
    unfold raise in Hh. cbn [fst snd] in Hh.
    rewrite send_whatsapp_message_eq in Hh. injection Hh as <- <-.
    exists [msg_sorry user_phone].
    split; [reflexivity|]. right. right. split; [reflexivity|].
    exists d. auto.
  - rewrite Hv in Hh. cbn [job_data_falsy] in Hh.
    change (default ∅ (Some d)) with d in Hh.
    rewrite Ht in Hh. cbn [negb] in Hh.
    rewrite lift_eq in Hh. unfold dict_item in Hh. rewrite Hs in Hh.
    unfold ret, bret in Hh. cbn [fst snd] in Hh.
    rewrite bool_decide_eq_false_2 in Hh by exact Hne.
    rewrite send_whatsapp_message_eq in Hh. injection Hh as <- <-.
    exists [msg_failed user_phone].
    split; [reflexivity|]. right. left. auto.
Qed.

(** X15: [handle_whatsapp_video_generation] returns normally whatever
    Redis, the disk, the services and Twilio do.  It hands the
    "generating" and the "working" message to Twilio, runs the
    orchestration on the record it stored, five seconds later, and closes
    with the video message (the only one with a media link) and the
    "ready" message exactly when the record read back says [completed];
    otherwise it closes with one failure message.  It schedules
    nothing. *)
Theorem whatsapp_generation_notifies (E : env)
    (uuid4 prompt user_phone : pystr) (b : bot) :
  fst (handle_whatsapp_video_generation E uuid4 prompt user_phone b) = Ok tt
  ∧ core (snd (handle_whatsapp_video_generation E uuid4 prompt user_phone b))
    = after_get (whatsapp_finish E uuid4 prompt user_phone (core b))
  ∧ background
      (snd (handle_whatsapp_video_generation E uuid4 prompt user_phone b))
    = background b
  ∧ ∃ closing,
      messages
        (snd (handle_whatsapp_video_generation E uuid4 prompt user_phone b))
      = messages b
        ++ [msg_generating prompt user_phone; msg_working user_phone]
        ++ closing
      ∧ (closing = [msg_video uuid4 user_phone;
                    msg_ready uuid4 prompt user_phone]
         ∨ closing = [msg_failed user_phone]
         ∨ closing = [msg_sorry user_phone])
      ∧ (closing = [msg_video uuid4 user_phone;
                    msg_ready uuid4 prompt user_phone]
         ↔ says_completed
             (visible (whatsapp_finish E uuid4 prompt user_phone (core b))
                      uuid4)).
Proof.
  destruct (handle_whatsapp_video_generation_cases E uuid4 prompt
              user_phone b) as (closing & -> & Hcl).
  cbn [fst snd].
  destruct (send_all_frame closing
              (whatsapp_progress E uuid4 prompt user_phone b))
    as (-> & -> & _).
  split; [reflexivity|]. split; [reflexivity|].
  split.
  { unfold whatsapp_progress. cbn [background with_core].
    exact (proj1 (proj2 (send_all_frame _ b))). }
  exists closing. split.
  { rewrite messages_send_all, app_assoc. f_equal.
    change (messages (whatsapp_progress E uuid4 prompt user_phone b))
      with (messages (send_all [msg_generating prompt user_phone;
                                msg_working user_phone] b)).
    apply messages_send_all. }
  destruct Hcl as [(-> & Hyes)|[(-> & Hno)|(-> & d & Hv & Hs)]].
  - split; [left; reflexivity|]. split; auto.
  - split; [right; left; reflexivity|].
    split; [intros H; discriminate H|intros H; contradiction].
  - split; [right; right; reflexivity|].
    split; [intros H; discriminate H|].
    intros (d' & Hv' & Hs'). congruence.
Qed.

Lemma whatsapp_start_tracked job_id prompt user_phone w :
  redis_reliable w → tracked job_id (whatsapp_start job_id prompt user_phone w).
Proof.
  intros Hr.
  destruct (store_job_data_reliable job_id
              (whatsapp_job_data prompt user_phone) w Hr) as [Hr1 Hv1].
  apply (tracked_view job_id
           (snd (store_job_data job_id
                   (whatsapp_job_data prompt user_phone) w)));
    [reflexivity|].
  split; [exact Hr1|].
  exists (whatsapp_job_data prompt user_phone). split; [exact Hv1|].
  intros H. apply (f_equal (λ m : record, m !! "status")) in H.
  vm_compute in H. discriminate H.
Qed.

Lemma whatsapp_start_files job_id prompt user_phone w :
  files (whatsapp_start job_id prompt user_phone w) = files w.
Proof.
  unfold whatsapp_start, sleep, modify. cbn [snd files].
  rewrite store_job_data_eq.
  destruct (redis_client (st w)), (next_call_fails w); reflexivity.
Qed.

Lemma get_status_after_get job_id w :
  redis_reliable w →
  fst (get_status job_id (after_get w)) = fst (get_status job_id w).
Proof.
  intros Hr. rewrite !get_status_eq, (visible_after_get job_id w Hr).
  reflexivity.
Qed.

Lemma lit_error_completed : PyStr (lit "error") ≠ PyStr (lit "completed").
Proof. intros H. vm_compute in H. discriminate H. Qed.

(** X16: while no call to Redis fails, what the bot tells the user is what
    the store says: after [handle_whatsapp_video_generation] either the
    job is [completed], its artifact is on disk and the user got the
    video message and the "ready" message, or the job is in [error], no
    file was written and the user got the "generation failed" message.
    The "sorry" message of the exception handler is never sent. *)
Theorem whatsapp_generation_reliable (E : env)
    (uuid4 prompt user_phone : pystr) (b : bot) :
  redis_reliable (core b) →
  (∃ message video_url body,
     fst (get_status uuid4
            (core (snd (handle_whatsapp_video_generation E uuid4 prompt
                          user_phone b))))
     = Ok (completed_status uuid4 message video_url)
     ∧ messages (snd (handle_whatsapp_video_generation E uuid4 prompt
                        user_phone b))
       = messages b
         ++ [msg_generating prompt user_phone; msg_working user_phone;
             msg_video uuid4 user_phone; msg_ready uuid4 prompt user_phone]
     ∧ files (core (snd (handle_whatsapp_video_generation E uuid4 prompt
                           user_phone b)))
       = <[video_file uuid4 := body]> (files (core b)))
  ∨ (fst (get_status uuid4
            (core (snd (handle_whatsapp_video_generation E uuid4 prompt
                          user_phone b))))
     = Ok (error_status uuid4)
     ∧ messages (snd (handle_whatsapp_video_generation E uuid4 prompt
                        user_phone b))
       = messages b
         ++ [msg_generating prompt user_phone; msg_working user_phone;
             msg_failed user_phone]
     ∧ files (core (snd (handle_whatsapp_video_generation E uuid4 prompt
                           user_phone b)))
       = files (core b)).
Proof.
  intros Hr.
  pose proof (whatsapp_start_tracked uuid4 prompt user_phone (core b) Hr)
    as Ht.
  destruct (handle_whatsapp_video_generation_cases E uuid4 prompt
              user_phone b) as (closing & -> & Hcl).
  cbn [snd].
  rewrite messages_send_all.
  destruct (send_all_frame closing
              (whatsapp_progress E uuid4 prompt user_phone b))
    as (-> & _ & _).
  change (core (whatsapp_progress E uuid4 prompt user_phone b))
    with (after_get (whatsapp_finish E uuid4 prompt user_phone (core b))).
  change (messages (whatsapp_progress E uuid4 prompt user_phone b))
    with (messages (send_all [msg_generating prompt user_phone;
                              msg_working user_phone] b)).
  rewrite messages_send_all, <- app_assoc, files_after_get.
  set (wf := whatsapp_finish E uuid4 prompt user_phone (core b)) in *.
  destruct (orchestration_outcome E uuid4 prompt
              (whatsapp_start uuid4 prompt user_phone (core b)))
    as (_ & [(pre & m & url & body & _ & Hv & Hf)|(pre & _ & Hv & Hf)]);
    fold (whatsapp_finish E uuid4 prompt user_phone (core b)) in Hv, Hf;
    fold wf in Hv, Hf;
    rewrite whatsapp_start_files in Hf;
    destruct (last_update_visible uuid4 pre _ _ wf Ht Hv) as [d Hd];
    assert (Hrf : redis_reliable wf)
      by (apply (tracked_view uuid4 _ wf (eq_sym Hv)), run_keeps_tracked, Ht);
    rewrite (get_status_after_get uuid4 wf Hrf).
  - assert (Hs : dict_update d (upd_completed m url (video_file uuid4))
                 !! "status" = Some (PyStr (lit "completed")))
      by (rewrite dict_update_lookup,
            (proj1 (upd_completed_fields m url (video_file uuid4)));
          reflexivity).
    assert (Hfile : files wf !! video_file uuid4 = Some body)
      by (rewrite Hf; apply lookup_insert_eq).
    left. exists m, url, body.
    split; [exact (proj1 (completed_answers uuid4 pre m url body _ wf
                            Ht Hv Hfile))|].
    split; [|exact Hf].
    destruct Hcl as [(-> & _)|[(_ & Hno)|(_ & d' & Hv' & Hs')]].
    + reflexivity.
    + exfalso. apply Hno. eexists. split; [exact Hd|exact Hs].
    + exfalso. congruence.
  - assert (Hs : dict_update d upd_error !! "status"
                 = Some (PyStr (lit "error")))
      by (rewrite dict_update_lookup, (proj1 upd_error_fields);
          reflexivity).
    right.
    split; [exact (proj1 (error_answers uuid4 pre _ wf Ht Hv))|].
    split; [|exact Hf].
    destruct Hcl as [(_ & d' & Hv' & Hs')|[(-> & _)|(_ & d' & Hv' & Hs')]].
    + exfalso. apply lit_error_completed. congruence.
    + reflexivity.
    + exfalso. congruence.
Qed.

Lemma whatsapp_generation_reliable_witness :
  (∃ message video_url body,
     fst (get_status Sample.job
            (core (snd (handle_whatsapp_video_generation Sample.offline
                          Sample.job Sample.prompt BotSample.phone
                          Tier3Bot.start))))
     = Ok (completed_status Sample.job message video_url)
     ∧ messages (snd (handle_whatsapp_video_generation Sample.offline
                        Sample.job Sample.prompt BotSample.phone
                        Tier3Bot.start))
       = messages Tier3Bot.start
         ++ [msg_generating Sample.prompt BotSample.phone;
             msg_working BotSample.phone;
             msg_video Sample.job BotSample.phone;
             msg_ready Sample.job Sample.prompt BotSample.phone]
     ∧ files (core (snd (handle_whatsapp_video_generation Sample.offline
                           Sample.job Sample.prompt BotSample.phone
                           Tier3Bot.start)))
       = <[video_file Sample.job := body]> (files (core Tier3Bot.start)))
  ∨ (fst (get_status Sample.job
            (core (snd (handle_whatsapp_video_generation Sample.offline
                          Sample.job Sample.prompt BotSample.phone
                          Tier3Bot.start))))
     = Ok (error_status Sample.job)
     ∧ messages (snd (handle_whatsapp_video_generation Sample.offline
                        Sample.job Sample.prompt BotSample.phone
                        Tier3Bot.start))
       = messages Tier3Bot.start
         ++ [msg_generating Sample.prompt BotSample.phone;
             msg_working BotSample.phone;
             msg_failed BotSample.phone]
     ∧ files (core (snd (handle_whatsapp_video_generation Sample.offline
                           Sample.job Sample.prompt BotSample.phone
                           Tier3Bot.start)))
       = files (core Tier3Bot.start)).
Proof.
  assert (Hr : redis_reliable (core Tier3Bot.start))
    by (intros _; vm_compute; constructor).
  exact (whatsapp_generation_reliable Sample.offline Sample.job
           Sample.prompt BotSample.phone Tier3Bot.start Hr).
Defined.
